(** * trafilatura command-line utilities ([cli_utils.py]): a shallow embedding

    The module schedules downloads over per-domain URL queues with a
    politeness interval, passes every document through a size gate and an
    external extractor, and writes results into counter-sharded directories.
    Python values are embedded as follows: [int] as [Z], [str]/[bytes] as
    [string] (characters are code points below 256), [None]-able values as
    [option], [dict] as [gmap], [set] as [gset], [list] as [list].  Effects
    (clock, random generator, file system, output streams, thread and process
    pools) are threaded through a state-and-exception monad over a [World]. *)

From Stdlib Require Import ZArith String Ascii List Lia Bool.
From stdpp Require Import base option list strings pretty gmap fin_maps fin_sets.

Local Open Scope string_scope.
Local Open Scope list_scope.
Local Open Scope Z_scope.

(** ** Python built-ins used by the module *)

Module Py.

(** [str.isspace] on one character: TAB..CR, FS..US, SPACE, NEL, NBSP. *)
Definition isspace (a : ascii) : bool :=
  let n := N_of_ascii a in
  ((9 <=? n) && (n <=? 13) || (28 <=? n) && (n <=? 32)
   || (n =? 133) || (n =? 160))%N.

Fixpoint lstrip (s : string) : string :=
  match s with
  | String a s' => if isspace a then lstrip s' else s
  | EmptyString => EmptyString
  end.

Definition rstrip (s : string) : string :=
  String.rev (lstrip (String.rev s)).

(** [s.strip()] *)
Definition strip (s : string) : string := rstrip (lstrip s).

(** [s.startswith(p)] *)
Fixpoint startswith (p s : string) : bool :=
  match p, s with
  | EmptyString, _ => true
  | String a p', String b s' => if ascii_dec a b then startswith p' s' else false
  | String _ _, EmptyString => false
  end.

(** [s[n:]] for a non-negative literal [n] *)
Fixpoint drop (n : nat) (s : string) : string :=
  match n, s with
  | O, _ => s
  | S n', String _ s' => drop n' s'
  | S _, EmptyString => EmptyString
  end.

(** [s[:n]] for a non-negative literal [n] *)
Fixpoint take (n : nat) (s : string) : string :=
  match n, s with
  | O, _ => EmptyString
  | S n', String a s' => String a (take n' s')
  | S _, EmptyString => EmptyString
  end.

(** [re.sub('^' + old, new, s)] for a literal [old]: the anchor [^] (no
    MULTILINE flag) matches at position 0 only, so at most one
    replacement happens. *)
Definition re_sub_prefix (old new s : string) : string :=
  if startswith old s then new +:+ drop (String.length old) s else s.

(** [s.replace(a, b)] for single characters *)
Fixpoint replace_char (a b : ascii) (s : string) : string :=
  match s with
  | String c s' => String (if ascii_dec c a then b else c) (replace_char a b s')
  | EmptyString => EmptyString
  end.

Fixpoint endswith_char (a : ascii) (s : string) : bool :=
  match s with
  | EmptyString => false
  | String c EmptyString => if ascii_dec c a then true else false
  | String _ s' => endswith_char a s'
  end.

(** [os.path.join(a, b)] (posixpath, two arguments) *)
Definition path_join (a b : string) : string :=
  if startswith "/" b then b
  else if (String.length a =? 0)%nat || endswith_char "/"%char a then a +:+ b
  else a +:+ "/" +:+ b.

(** [str(n)] for an [int] *)
Definition str (n : Z) : string := pretty n.

(** [len(x)] *)
Definition len {A} (l : list A) : Z := Z.of_nat (length l).
Definition slen (s : string) : Z := Z.of_nat (String.length s).

(** [a or b] where [a] is an [int] or [None]: [None] and [0] are falsy. *)
Definition or_default (a : option Z) (b : Z) : Z :=
  match a with
  | Some n => if n =? 0 then b else n
  | None => b
  end.

(** [int(a / b)] for [int] operands with [b <> 0]: true division followed
    by truncation toward zero.  The float quotient is taken to be exact,
    which it is for the file counters this program handles. *)
Definition int_truediv (a b : Z) : Z := Z.quot a b.

End Py.

(** ** Input normalisation: [load_blacklist] *)

(** One iteration of the [for line in inputfh] loop. *)
Definition load_blacklist_line (blacklist : gset string) (line : string) : gset string :=
  let url := Py.strip line in
  let blacklist := blacklist ∪ {[ url ]} in
  if Py.startswith "https" url
  then blacklist ∪ {[ Py.re_sub_prefix "https:" "http:" url ]}
  else blacklist ∪ {[ Py.re_sub_prefix "http:" "https:" url ]}.

(** [load_blacklist], on the lines the file object yields. *)
Definition load_blacklist (lines : list string) : gset string :=
  foldl load_blacklist_line ∅ lines.

(** ** Command-line options, settings and external collaborators *)

(** The [args] namespace built by the command-line parser; the fields are
    the ones this module reads.  [args.list] is [list_only] here. *)
Record Args := {
  xml : bool; xmltei : bool; csv : bool; json : bool;
  output_format : string;
  hash_as_name : bool;
  keep_dirs : bool;
  outputdir : option string;
  backup_dir : option string;
  inputdir : string;
  URL : option string;
  parallel : option Z;
  list_only : bool;
  archived : bool;
  blacklist : gset string;
  timeout : bool;
  fast : bool; nocomments : bool; notables : bool; formatting : bool;
  with_metadata : bool; validate : bool; deduplicate : bool;
  target_language : option string
}.

(** What a call of the extractor does: return a result (possibly [None])
    or raise, with [str(err)] and [str(sys.exc_info()[0])]. *)
Inductive extract_outcome :=
  | Extracted (result : option string)
  | Faulted (err exc_type : string).

(** Constants of [settings.py] and the functions imported from [courlan],
    [.core], [.filters] and [.utils], none of which is part of this module,
    together with the answers of the operating system: the raw outputs of
    the global random generator, the latency of each download, the completion
    order of a batch of futures, the directory walk, and the directories
    [makedirs] cannot create.  [name_attempts] bounds the one loop whose
    termination depends on the environment (regenerating a file name until
    it is unused). *)
Record Env := {
  DOWNLOAD_THREADS : Z;
  FILENAME_LEN : Z;
  FILE_PROCESSING_CORES : Z;
  MIN_FILE_SIZE : Z;
  MAX_FILE_SIZE : Z;
  MAX_FILES_PER_DIRECTORY : Z;
  PROCESSING_TIMEOUT : Z;
  extract_domain : string → string;
  validate_url : string → bool;
  content_fingerprint : string → string;
  fetch_url : string → option string;
  extract : string → option string → Args → extract_outcome;
  random_source : nat → nat;
  fetch_latency : string → Z;
  as_completed : list string → list string;
  walk : string → list (string * list string * list string);
  makedirs_denied : string → bool;
  name_attempts : nat
}.

(** ** The world and the effect monad *)

Inductive event :=
  | Stdout (s : string)
  | Stderr (s : string)
  | FileWritten (path content : string)
  | Slept (duration : Z)
  | Fetched (url : string)
  | ExtractCalled (htmlstring : string) (url : option string)
  | Alarm (seconds : Z)
  | Logged (level msg : string)
  | ThreadPool (max_workers : Z) (urls : list string)
  | PoolMap (processes : Z) (counter : option Z) (batch : list string).

(** [clock] is the wall clock in the unit in which [sleeptime] is given;
    [rng_pos] counts the draws made from the global generator; [trace]
    lists the observable events, oldest first. *)
Record World := {
  clock : Z;
  rng_pos : nat;
  files : gmap string string;
  dirs : gset string;
  trace : list event
}.

Inductive exn :=
  | IndexError | KeyError | ZeroDivisionError | ValueError | TypeError
  | FileNotFoundError.

Inductive outcome (A : Type) :=
  | Ok (a : A) (w : World)
  | Raised (e : exn) (w : World)
  | OutOfFuel.
Arguments Ok {A} a w.
Arguments Raised {A} e w.
Arguments OutOfFuel {A}.

Definition M (A : Type) : Type := World → outcome A.

Definition ret {A} (a : A) : M A := λ w, Ok a w.
Definition bind {A B} (m : M A) (k : A → M B) : M B :=
  λ w, match m w with
       | Ok a w' => k a w'
       | Raised e w' => Raised e w'
       | OutOfFuel => OutOfFuel
       end.
Definition raise {A} (e : exn) : M A := λ w, Raised e w.
Definition out_of_fuel {A} : M A := λ _, OutOfFuel.

Notation "'let*' x := m 'in' k" := (bind m (λ x, k))
  (at level 10, x name, m at level 100, k at level 200).
Notation "'let*' ' pat := m 'in' k" := (bind m (λ x, match x with pat => k end))
  (at level 10, pat pattern, m at level 100, k at level 200).
Notation "m ;;; k" := (bind m (λ _, k))
  (at level 100, k at level 200, right associativity).

(** World updates: one more event, time passing, one more random draw. *)
Definition add_event (e : event) (w : World) : World :=
  {| clock := clock w; rng_pos := rng_pos w; files := files w;
     dirs := dirs w; trace := trace w ++ [e] |}.
Definition advance (dt : Z) (w : World) : World :=
  {| clock := clock w + dt; rng_pos := rng_pos w; files := files w;
     dirs := dirs w; trace := trace w |}.
Definition next_rng (w : World) : World :=
  {| clock := clock w; rng_pos := S (rng_pos w); files := files w;
     dirs := dirs w; trace := trace w |}.

Definition emit (e : event) : M unit := λ w, Ok tt (add_event e w).
Definition elapse (dt : Z) : M unit := λ w, Ok tt (advance dt w).

(** [for x in l: body] *)
Fixpoint for_each {A} (l : list A) (body : A → M unit) : M unit :=
  match l with
  | [] => ret tt
  | x :: l' => body x ;;; for_each l' body
  end.

(** [when c: body] *)
Definition when (c : bool) (body : M unit) : M unit :=
  if c then body else ret tt.

(** [l.pop()] on a list: the last element and the list without it. *)
Definition list_pop {A} (l : list A) : option (A * list A) :=
  match last l with
  | Some x => Some (x, removelast l)
  | None => None
  end.

(** [list(OrderedDict.fromkeys(l))]: first occurrences, in order. *)
Fixpoint fromkeys (seen : gset string) (l : list string) : list string :=
  match l with
  | [] => []
  | x :: l' =>
      if decide (x ∈ seen) then fromkeys seen l'
      else x :: fromkeys ({[ x ]} ∪ seen) l'
  end.

(** [list(d)]: the keys of a dict. *)
Definition keys {V} (d : gmap string V) : list string := (map_to_list d).*1.

(** [{x for v in d.values() for x in v}] *)
Definition distinct_urls (d : gmap string (list string)) : gset string :=
  list_to_set (concat (map_to_list d).*2).

(** Number of URLs still queued, over all domains. *)
Definition pending (d : gmap string (list string)) : nat :=
  length (concat (map_to_list d).*2).

(** [string.ascii_letters + string.digits] *)
Definition charclass : list ascii :=
  list_ascii_of_string
    "abcdefghijklmnopqrstuvwxyzABCDEFGHIJKLMNOPQRSTUVWXYZ0123456789".

Definition is_lower (a : ascii) : bool :=
  let n := N_of_ascii a in ((97 <=? n) && (n <=? 122))%N.

(** [re.sub(r'[^/]+$', '', s)]: drop the trailing run of non-slash
    characters. *)
Fixpoint strip_basename_rev (r : list ascii) : list ascii :=
  match r with
  | [] => []
  | c :: r' => if ascii_dec c "/" then r else strip_basename_rev r'
  end.
Definition strip_basename (s : string) : string :=
  string_of_list_ascii (rev (strip_basename_rev (rev (list_ascii_of_string s)))).

(** [re.sub(r'\.[a-z]{2,5}$', '', s)]: drop a final dot followed by two to
    five lower-case letters; [$] also matches before a final newline. *)
Fixpoint lower_run (r : list ascii) : nat :=
  match r with
  | c :: r' => if is_lower c then S (lower_run r') else O
  | [] => O
  end.
Definition strip_ext_rev (r : list ascii) : list ascii :=
  let k := lower_run r in
  if (2 <=? k)%nat && (k <=? 5)%nat then
    match skipn k r with
    | c :: r' => if ascii_dec c "." then r' else r
    | [] => r
    end
  else r.
Definition strip_extension (s : string) : string :=
  match rev (list_ascii_of_string s) with
  | c :: r =>
      if ascii_dec c "010"
      then string_of_list_ascii (rev (c :: strip_ext_rev r))
      else string_of_list_ascii (rev (strip_ext_rev (c :: r)))
  | [] => s
  end.

(** The newline character, as a string. *)
Definition nl : string := String "010" EmptyString.

(** Truthiness of an optional string: [None] and [''] are falsy. *)
Definition truthy (s : option string) : bool :=
  match s with
  | Some (String _ _) => true
  | _ => false
  end.

Section Program.

Variable E : Env.

(** *** Primitive effects *)

Definition stdout_write (s : string) : M unit := emit (Stdout s).
Definition stderr_write (s : string) : M unit := emit (Stderr s).
Definition LOGGER (level msg : string) : M unit := emit (Logged level msg).

(** [datetime.now()] *)
Definition datetime_now : M Z := λ w, Ok (clock w) w.

(** [sleep(s)]: raises [ValueError] on a negative duration. *)
Definition sleep (s : Z) : M unit :=
  if s <? 0 then raise ValueError else (emit (Slept s) ;;; elapse s).

(** [random.choice(l)]: raises [IndexError] on an empty sequence. *)
Definition random_choice {A} (l : list A) : M A :=
  λ w,
    match l !! (random_source E (rng_pos w) mod length l)%nat with
    | Some x => Ok x (next_rng w)
    | None => Raised IndexError w
    end.

Definition path_exists (p : string) : M bool :=
  λ w, Ok (bool_decide (p ∈ dirs w) || bool_decide (p ∈ dom (files w))) w.
Definition path_isdir (p : string) : M bool :=
  λ w, Ok (bool_decide (p ∈ dirs w)) w.

(** [makedirs(d, exist_ok=True)]; [false] stands for [OSError]. *)
Definition makedirs (d : string) : M bool :=
  λ w,
    if makedirs_denied E d || bool_decide (d ∈ dom (files w)) then Ok false w
    else Ok true {| clock := clock w; rng_pos := rng_pos w; files := files w;
                    dirs := {[ d ]} ∪ dirs w; trace := trace w |}.

(** [with open(p, mode='w') as f: f.write(content)] *)
Definition file_write (p content : string) : M unit :=
  λ w, Ok tt (add_event (FileWritten p content)
                {| clock := clock w; rng_pos := rng_pos w;
                   files := <[p := content]> (files w);
                   dirs := dirs w; trace := trace w |}).

(** [with open(p, 'rb') as f: f.read()] *)
Definition file_read (p : string) : M string :=
  λ w, match files w !! p with
       | Some c => Ok c w
       | None => Raised FileNotFoundError w
       end.

(** The download collaborator, with its latency. *)
Definition fetch (url : string) : M (option string) :=
  emit (Fetched url) ;;; elapse (fetch_latency E url) ;;; ret (fetch_url E url).

(** *** Output path assignment *)

Definition check_outputdir_status (directory : string) : M bool :=
  let* ex := path_exists directory in
  let* isd := path_isdir directory in
  if negb ex || negb isd then
    (let* made := makedirs directory in
     if made then ret true
     else
       (stderr_write ("ERROR: Destination directory cannot be created: "
                      +:+ directory +:+ nl) ;;;
        ret false))
  else ret true.

Definition determine_counter_dir (dirname : string) (counter : option Z) : M string :=
  match counter with
  | Some c =>
      if MAX_FILES_PER_DIRECTORY E =? 0 then raise ZeroDivisionError
      else ret (Py.path_join dirname
                  (Py.str (Py.int_truediv c (MAX_FILES_PER_DIRECTORY E) + 1)))
  | None => ret (Py.path_join dirname "")
  end.

(** [''.join(random.choice(charclass) for _ in range(n))] *)
Fixpoint random_name (n : nat) : M string :=
  match n with
  | O => ret ""
  | S n' => let* c := random_choice charclass in let* s := random_name n' in ret (String c s)
  end.

(** The [while path.exists(output_path)] loop of [get_writable_path]. *)
Fixpoint get_writable_loop (fuel : nat) (destdir extension filename output_path : string)
  : M (string * string) :=
  let* ex := path_exists output_path in
  if ex then
    match fuel with
    | O => out_of_fuel
    | S fuel' =>
        let* filename := random_name (Z.to_nat (FILENAME_LEN E)) in
        get_writable_loop fuel' destdir extension filename
          (Py.path_join destdir (filename +:+ extension))
    end
  else ret (output_path, filename).

Definition get_writable_path (destdir extension : string) : M (string * string) :=
  let* filename := random_name (Z.to_nat (FILENAME_LEN E)) in
  get_writable_loop (name_attempts E) destdir extension filename
    (Py.path_join destdir (filename +:+ extension)).

Definition determine_extension (args : Args) : string :=
  if xml args || xmltei args || bool_decide (output_format args = "xml") then ".xml"
  else if csv args || bool_decide (output_format args = "csv") then ".csv"
  else if json args || bool_decide (output_format args = "json") then ".json"
  else ".txt".

(** [path.join(args.outputdir, ...)] raises [TypeError] on [None], and so
    does [re.sub] on a missing [orig_filename]. *)
Definition determine_output_path (args : Args) (orig_filename : option string)
    (content : string) (counter : option Z) (new_filename : option string)
  : M (string * string) :=
  let extension := determine_extension args in
  let new_filename :=
    if hash_as_name args
    then Some (Py.replace_char "/" "-" (Py.take 27 (content_fingerprint E content)))
    else new_filename in
  match outputdir args with
  | None => raise TypeError
  | Some out =>
      if keep_dirs args then
        match orig_filename with
        | None => raise TypeError
        | Some orig =>
            let orig_directory := strip_basename orig in
            let destination_directory := Py.path_join out orig_directory in
            let filename := strip_extension orig in
            ret (Py.path_join out (filename +:+ extension), destination_directory)
        end
      else
        let* destination_directory := determine_counter_dir out counter in
        match new_filename with
        | None =>
            let* '(output_path, _) := get_writable_path destination_directory extension in
            ret (output_path, destination_directory)
        | Some name =>
            ret (Py.path_join destination_directory (name +:+ extension),
                 destination_directory)
        end
  end.

Definition archive_html (htmlstring : string) (args : Args) (counter : option Z)
  : M string :=
  match backup_dir args with
  | None => raise TypeError
  | Some bdir =>
      let* destination_directory := determine_counter_dir bdir counter in
      let* '(output_path, filename) := get_writable_path destination_directory ".html" in
      let* ok := check_outputdir_status destination_directory in
      when ok (file_write output_path htmlstring) ;;;
      ret filename
  end.

Definition write_result (result : option string) (args : Args)
    (orig_filename : option string) (counter : option Z) (new_filename : option string)
  : M unit :=
  match result with
  | None => ret tt
  | Some result =>
      match outputdir args with
      | None => stdout_write (result +:+ nl)
      | Some _ =>
          let* '(destination_path, destination_directory) :=
            determine_output_path args orig_filename result counter new_filename in
          let* ok := check_outputdir_status destination_directory in
          when ok (file_write destination_path result)
      end
  end.

(** *** The per-document safety gate *)

Definition examine (htmlstring : option string) (args : Args) (url : option string)
  : M (option string) :=
  match htmlstring with
  | None => stderr_write ("ERROR: empty document" +:+ nl) ;;; ret None
  | Some html =>
      if Py.slen html >? MAX_FILE_SIZE E then
        stderr_write ("ERROR: file too large" +:+ nl) ;;; ret None
      else if Py.slen html <? MIN_FILE_SIZE E then
        stderr_write ("ERROR: file too small" +:+ nl) ;;; ret None
      else
        when (timeout args) (emit (Alarm (PROCESSING_TIMEOUT E))) ;;;
        emit (ExtractCalled html url) ;;;
        let* result :=
          match extract E html url args with
          | Extracted r => ret r
          | Faulted err exc_type =>
              stderr_write ("ERROR: " +:+ err +:+ nl +:+ "Details: "
                            +:+ exc_type +:+ nl) ;;;
              ret None
          end in
        when (timeout args) (emit (Alarm 0)) ;;;
        ret result
  end.

(** *** File processing *)

Definition generate_filelist (inputdir : string) : list string :=
  flat_map (λ '(root, _, inputfiles), map (Py.path_join root) inputfiles)
           (walk E inputdir).

Definition file_processing (filename : string) (args : Args) (counter : option Z)
  : M unit :=
  let* htmlstring := file_read filename in
  let* result := examine (Some htmlstring) args (URL args) in
  write_result result args (Some filename) counter None.

(** [with Pool(processes=n) as pool: pool.map(partial(file_processing,
    args=args, counter=counter), batch)]; [Pool] raises [ValueError]
    below one process.  The workers are run one after the other. *)
Definition pool_map (processes : Z) (args : Args) (counter : option Z)
    (batch : list string) : M unit :=
  if processes <? 1 then raise ValueError
  else
    emit (PoolMap processes counter batch) ;;;
    for_each batch (λ filename, file_processing filename args counter).

(** The [for filename in generate_filelist(...)] loop of
    [file_processing_pipeline]; the state is [(filebatch, filecounter)]. *)
Fixpoint batch_loop (processing_cores : Z) (args : Args) (filelist : list string)
    (filebatch : list string) (filecounter : option Z)
  : M (list string * option Z) :=
  match filelist with
  | [] => ret (filebatch, filecounter)
  | filename :: rest =>
      let filebatch := filebatch ++ [filename] in
      if Py.len filebatch >? MAX_FILES_PER_DIRECTORY E then
        let filecounter := match filecounter with None => 0 | Some c => c end in
        pool_map processing_cores args (Some filecounter) filebatch ;;;
        batch_loop processing_cores args rest [] (Some (filecounter + Py.len filebatch))
      else batch_loop processing_cores args rest filebatch filecounter
  end.

Definition file_processing_pipeline (args : Args) : M unit :=
  let processing_cores := Py.or_default (parallel args) (FILE_PROCESSING_CORES E) in
  let* '(filebatch, filecounter) :=
    batch_loop processing_cores args (generate_filelist (inputdir args)) [] None in
  let filecounter :=
    match filecounter with
    | Some c => Some (c + Py.len filebatch)
    | None => None
    end in
  pool_map processing_cores args filecounter filebatch.

(** *** URL processing *)

Definition url_processing_checks (blacklist : gset string) (input_urls : list string)
  : M (list string) :=
  let input_urls :=
    if bool_decide (blacklist ≠ ∅)
    then filter (λ u, u ∉ blacklist) input_urls
    else input_urls in
  let input_urls :=
    match input_urls with
    | [] => input_urls
    | _ :: _ => filter (λ u, validate_url E u = true) input_urls
    end in
  match input_urls with
  | _ :: _ => ret (fromkeys ∅ input_urls)
  | [] =>
      LOGGER "error" "No URLs to process, invalid or blacklisted input" ;;;
      ret []
  end.

Definition process_result (htmlstring : string) (args : Args) (url : string)
    (counter : option Z) : M (option Z) :=
  let* fileslug :=
    if truthy (backup_dir args)
    then (let* slug := archive_html htmlstring args counter in ret (Some slug))
    else ret None in
  let* result := examine (Some htmlstring) args (Some url) in
  write_result result args None None fileslug ;;;
  ret (match counter with
       | Some c => Some (c + 1)
       | None => None
       end).

(** *** The backoff scheduler *)

(** The safeguard of [draw_backoff_url]: the new value of [i]. *)
Definition backoff_safeguard (domain_dict : gmap string (list string))
    (backoff_dict : gmap string Z) (sleeptime i : Z) (domain : string) : M Z :=
  match backoff_dict !! domain with
  | Some last =>
      let* now := datetime_now in
      if now - last <? sleeptime then
        let i := i + 1 in
        if i >=? Z.of_nat (size domain_dict) * 3 then
          LOGGER "debug" ("spacing request for domain name " +:+ domain) ;;;
          sleep sleeptime ;;;
          ret 0
        else ret i
      else ret i
  | None => ret i
  end.

Definition draw_backoff_url (domain_dict : gmap string (list string))
    (backoff_dict : gmap string Z) (sleeptime i : Z)
  : M (string * gmap string (list string) * gmap string Z * Z) :=
  let* domain := random_choice (keys domain_dict) in
  let* i := backoff_safeguard domain_dict backoff_dict sleeptime i domain in
  match domain_dict !! domain with
  | None => raise KeyError
  | Some queue =>
      match list_pop queue with
      | None => raise IndexError
      | Some (url, []) =>
          ret (url, delete domain domain_dict, delete domain backoff_dict, i)
      | Some (url, (_ :: _) as queue') =>
          let* now := datetime_now in
          ret (url, <[domain := queue']> domain_dict, <[domain := now]> backoff_dict, i)
      end
  end.

(** *** The executors *)

(** The [while domain_dict] loop of [single_threaded_processing]. *)
Fixpoint single_loop (fuel : nat) (domain_dict : gmap string (list string))
    (backoff_dict : gmap string Z) (args : Args) (sleeptime : Z)
    (counter : option Z) (i : Z) (errors : list string)
  : M (list string * option Z) :=
  if bool_decide (domain_dict = ∅) then ret (errors, counter)
  else
    match fuel with
    | O => out_of_fuel
    | S fuel' =>
        let* '(url, domain_dict, backoff_dict, i) :=
          draw_backoff_url domain_dict backoff_dict sleeptime i in
        let* htmlstring := fetch url in
        match htmlstring with
        | Some html =>
            let* counter := process_result html args url counter in
            single_loop fuel' domain_dict backoff_dict args sleeptime counter i errors
        | None =>
            LOGGER "debug" ("No result for URL: " +:+ url) ;;;
            single_loop fuel' domain_dict backoff_dict args sleeptime counter i
              (errors ++ [url])
        end
    end.

(** Every iteration removes one URL or raises, so the loop is entered at
    most [pending domain_dict + 1] times. *)
Definition single_threaded_processing (domain_dict : gmap string (list string))
    (backoff_dict : gmap string Z) (args : Args) (sleeptime : Z) (counter : option Z)
  : M (list string * option Z) :=
  single_loop (S (pending domain_dict)) domain_dict backoff_dict args sleeptime
    counter 3 [].

(** The [while len(bufferlist) < download_threads] loop, [n] being the
    number of URLs still missing from the buffer. *)
Fixpoint populate_buffer (n : nat) (bufferlist : list string)
    (domain_dict : gmap string (list string)) (backoff_dict : gmap string Z)
    (sleeptime i : Z)
  : M (list string * gmap string (list string) * gmap string Z * Z) :=
  match n with
  | O => ret (bufferlist, domain_dict, backoff_dict, i)
  | S n' =>
      let* '(url, domain_dict, backoff_dict, i) :=
        draw_backoff_url domain_dict backoff_dict sleeptime i in
      populate_buffer n' (bufferlist ++ [url]) domain_dict backoff_dict sleeptime i
  end.

(** The [for future in as_completed(future_to_url)] loop. *)
Fixpoint handle_results (completed : list string) (args : Args)
    (counter : option Z) (errors : list string) : M (list string * option Z) :=
  match completed with
  | [] => ret (errors, counter)
  | url :: rest =>
      match fetch_url E url with
      | Some html =>
          let* counter := process_result html args url counter in
          handle_results rest args counter errors
      | None =>
          LOGGER "debug" ("No result for URL: " +:+ url) ;;;
          handle_results rest args counter (errors ++ [url])
      end
  end.

(** [with ThreadPoolExecutor(max_workers=n) as executor]: the downloads of
    a batch run side by side, so the clock advances by the longest one;
    [ThreadPoolExecutor] raises [ValueError] below one worker. *)
Definition thread_pool_fetch (max_workers : Z) (bufferlist : list string) : M (list string) :=
  if max_workers <? 1 then raise ValueError
  else
    emit (ThreadPool max_workers bufferlist) ;;;
    elapse (foldr Z.max 0 (map (fetch_latency E) bufferlist)) ;;;
    ret (as_completed E bufferlist).

(** The [while domain_dict] loop of [multi_threaded_processing]. *)
Fixpoint multi_loop (fuel : nat) (domain_dict : gmap string (list string))
    (backoff_dict : gmap string Z) (args : Args) (sleeptime : Z)
    (counter : option Z) (i : Z) (errors : list string) (download_threads : Z)
  : M (list string * option Z) :=
  if bool_decide (domain_dict = ∅) then ret (errors, counter)
  else
    match fuel with
    | O => out_of_fuel
    | S fuel' =>
        if Z.of_nat (size (distinct_urls domain_dict)) <? download_threads then
          single_threaded_processing domain_dict backoff_dict args sleeptime counter
        else
          let* '(bufferlist, domain_dict, backoff_dict, i) :=
            populate_buffer (Z.to_nat download_threads) [] domain_dict backoff_dict
              sleeptime i in
          let* completed := thread_pool_fetch download_threads bufferlist in
          let* '(errors, counter) := handle_results completed args counter errors in
          multi_loop fuel' domain_dict backoff_dict args sleeptime counter i errors
            download_threads
    end.

Definition multi_threaded_processing (domain_dict : gmap string (list string))
    (args : Args) (sleeptime : Z) (counter : option Z)
  : M (list string * option Z) :=
  let download_threads := Py.or_default (parallel args) (DOWNLOAD_THREADS E) in
  multi_loop (S (pending domain_dict)) domain_dict ∅ args sleeptime counter 0 []
    download_threads.

(** *** The URL pipeline *)

(** The domain-partitioning loop, [while input_urls]; the state is
    [(input_urls, domain_dict)], and [fuel] bounds the iterations. *)
Fixpoint partition_loop (fuel : nat) (input_urls : list string)
    (domain_dict : gmap string (list string))
  : M (list string * gmap string (list string)) :=
  match list_pop input_urls with
  | None => ret (input_urls, domain_dict)
  | Some (url, input_urls) =>
      match fuel with
      | O => out_of_fuel
      | S fuel' =>
          let domain_name := extract_domain E url in
          let domain_dict :=
            if bool_decide (domain_name ∉ dom domain_dict)
            then <[domain_name := []]> domain_dict
            else domain_dict in
          let domain_dict := alter (λ q, q ++ [url]) domain_name domain_dict in
          partition_loop fuel' input_urls domain_dict
      end
  end.

(** Lines 295-307 of [url_processing_pipeline]: the domain-aware
    processing list and the file counter. *)
Definition url_pipeline_prepare (input_urls : list string)
  : M (gmap string (list string) * option Z) :=
  let* '(input_urls, domain_dict) :=
    partition_loop (length input_urls) input_urls ∅ in
  let counter :=
    if Py.len input_urls >? MAX_FILES_PER_DIRECTORY E then Some 0 else None in
  ret (domain_dict, counter).

(** Lines 308-318 of [url_processing_pipeline]: the executor and the
    archive retry. *)
Definition url_pipeline_execute (args : Args) (sleeptime : Z)
    (domain_dict : gmap string (list string)) (counter : option Z) : M unit :=
  let* '(errors, counter) :=
    if Z.of_nat (size domain_dict) <=? 5
    then single_threaded_processing domain_dict ∅ args sleeptime counter
    else multi_threaded_processing domain_dict args sleeptime counter in
  LOGGER "debug" (Py.str (Py.len errors) +:+ " URLs could not be found") ;;;
  when (archived args)
    (let domain_dict : gmap string (list string) :=
       {[ "archive.org" := map (λ e, "https://web.archive.org/web/20/" +:+ e) errors ]} in
     let* '(archived_errors, _) :=
       single_threaded_processing domain_dict ∅ args sleeptime counter in
     LOGGER "debug" (Py.str (Py.len archived_errors) +:+ " archived URLs out of "
                     +:+ Py.str (Py.len errors) +:+ " could not be found")).

Definition url_processing_pipeline (args : Args) (input_urls : list string)
    (sleeptime : Z) : M unit :=
  let* input_urls := url_processing_checks (blacklist args) input_urls in
  if list_only args then
    for_each input_urls (λ url, write_result (Some url) args None None None)
  else
    let* '(domain_dict, counter) := url_pipeline_prepare input_urls in
    url_pipeline_execute args sleeptime domain_dict counter.

End Program.

(** ** Notions used in the statements *)

(** The domain [random.choice(list(domain_dict))] returns in world [w]. *)
Definition chosen_domain (E : Env) (domain_dict : gmap string (list string))
    (w : World) : option string :=
  keys domain_dict !! (random_source E (rng_pos w) mod length (keys domain_dict))%nat.

(** Every queued domain has at least one pending URL. *)
Definition queues_nonempty (domain_dict : gmap string (list string)) : Prop :=
  ∀ d q, domain_dict !! d = Some q → q ≠ [].

(** A domain of the backoff registry has a non-empty queue. *)
Definition registry_inv (domain_dict : gmap string (list string))
    (backoff_dict : gmap string Z) : Prop :=
  ∀ d, is_Some (backoff_dict !! d) → ∃ q, domain_dict !! d = Some q ∧ q ≠ [].

(** The chosen domain is inside its politeness window at time [now]. *)
Definition in_window (backoff_dict : gmap string Z) (sleeptime now : Z)
    (domain : string) : bool :=
  match backoff_dict !! domain with
  | Some last => now - last <? sleeptime
  | None => false
  end.

(** A document the safety gate turns away. *)
Definition rejected (E : Env) (htmlstring : option string) : Prop :=
  match htmlstring with
  | None => True
  | Some html => Py.slen html > MAX_FILE_SIZE E ∨ Py.slen html < MIN_FILE_SIZE E
  end.

(** The message the gate writes for a rejected document. *)
Definition rejection_message (E : Env) (htmlstring : option string) : string :=
  match htmlstring with
  | None => "ERROR: empty document" +:+ nl
  | Some html =>
      if Py.slen html >? MAX_FILE_SIZE E then "ERROR: file too large" +:+ nl
      else "ERROR: file too small" +:+ nl
  end.

(** The queue mapping and the registry a draw leaves behind, for the
    chosen [domain], what is left of its queue, and the time of dispatch. *)
Definition queue_after (domain_dict : gmap string (list string)) (domain : string)
    (rest : list string) : gmap string (list string) :=
  match rest with
  | [] => delete domain domain_dict
  | _ :: _ => <[domain := rest]> domain_dict
  end.
Definition registry_after (backoff_dict : gmap string Z) (domain : string)
    (rest : list string) (now : Z) : gmap string Z :=
  match rest with
  | [] => delete domain backoff_dict
  | _ :: _ => <[domain := now]> backoff_dict
  end.

(** The world after the stall valve has fired. *)
Definition paused (sleeptime : Z) (domain : string) (w : World) : World :=
  advance sleeptime
    (add_event (Slept sleeptime)
       (add_event (Logged "debug" ("spacing request for domain name " +:+ domain)) w)).

(** The scheduler states a run of draws can reach from an empty registry,
    whatever happens to the world and the stall counter between draws. *)
Inductive reachable (E : Env) (sleeptime : Z)
  : gmap string (list string) → gmap string Z → Prop :=
  | reach_start domain_dict : reachable E sleeptime domain_dict ∅
  | reach_draw domain_dict backoff_dict i w url domain_dict' backoff_dict' i' w' :
      reachable E sleeptime domain_dict backoff_dict →
      draw_backoff_url E domain_dict backoff_dict sleeptime i w
        = Ok (url, domain_dict', backoff_dict', i') w' →
      reachable E sleeptime domain_dict' backoff_dict'.

(** The calls of the extractor and the pauses recorded so far. *)
Definition is_extract_call (e : event) : bool :=
  match e with ExtractCalled _ _ => true | _ => false end.
Definition is_pause (e : event) : bool :=
  match e with Slept _ => true | _ => false end.
Definition extract_calls (w : World) : list event :=
  List.filter is_extract_call (trace w).
Definition pauses (w : World) : list event :=
  List.filter is_pause (trace w).


(** ** Stub collaborators for concrete runs *)

Definition stub_args : Args := {|
  xml := false; xmltei := false; csv := false; json := false;
  output_format := "txt"; hash_as_name := false; keep_dirs := false;
  outputdir := Some "out"; backup_dir := None; inputdir := "in"; URL := None;
  parallel := None; list_only := false; archived := false; blacklist := ∅;
  timeout := false; fast := false; nocomments := false; notables := false;
  formatting := false; with_metadata := false; validate := false;
  deduplicate := false; target_language := None |}.

(** The outputs of the stub generator: the ten outputs numbered [10 k] to
    [10 k + 9] are the digits of [k] in base 62, lowest first, so that the
    file names generated from them are pairwise different; the first ten
    outputs are all 0. *)
Definition stub_random (n : nat) : nat :=
  N.to_nat (((N.of_nat n / 10) / 62 ^ (N.of_nat n mod 10)) mod 62)%N.

(** Every download fails, futures complete in submission order, the
    extractor returns the document as it is, and the walk of the input
    directory yields [inputfiles], all in that directory. *)
Definition stub_env (max_files : Z) (inputfiles : list string) : Env := {|
  DOWNLOAD_THREADS := 4; FILENAME_LEN := 10; FILE_PROCESSING_CORES := 2;
  MIN_FILE_SIZE := 10; MAX_FILE_SIZE := 20000000;
  MAX_FILES_PER_DIRECTORY := max_files;
  PROCESSING_TIMEOUT := 30;
  extract_domain := λ _, "a.org";
  validate_url := λ _, true;
  content_fingerprint := λ s, s;
  fetch_url := λ _, None;
  extract := λ html _ _, Extracted (Some html);
  random_source := stub_random;
  fetch_latency := λ _, 1;
  as_completed := λ l, l;
  walk := λ d, [(d, [], inputfiles)];
  makedirs_denied := λ _, false;
  name_attempts := 5 |}.

(** A queue mapping with the single domain [a.org]. *)
Definition one_domain (urls : list string) : gmap string (list string) :=
  {[ "a.org" := urls ]}.

(** Six domains with one URL each. *)
Definition six_urls : list string :=
  ["http://a.org/1"; "http://b.org/1"; "http://c.org/1";
   "http://d.org/1"; "http://e.org/1"; "http://f.org/1"].
Definition six_domains : gmap string (list string) :=
  list_to_map [("a.org", ["http://a.org/1"]); ("b.org", ["http://b.org/1"]);
               ("c.org", ["http://c.org/1"]); ("d.org", ["http://d.org/1"]);
               ("e.org", ["http://e.org/1"]); ("f.org", ["http://f.org/1"])].

(** The value an outcome returns and the events it leaves, if any. *)
Definition result_of {A} (o : outcome A) : option A :=
  match o with
  | Ok a _ => Some a
  | _ => None
  end.
Definition events_of {A} (o : outcome A) : list event :=
  match o with
  | Ok _ w | Raised _ w => trace w
  | OutOfFuel => []
  end.

(** The file names [f0], [f1], ..., and a world where the directory [in]
    holds files of these names, each with the same content. *)
Definition numbered (n : nat) : list string :=
  map (λ k, "f" +:+ pretty k) (seq 0 n).
Definition world_with (names : list string) (content : string) : World :=
  {| clock := 0; rng_pos := 0;
     files := list_to_map (map (λ f, (Py.path_join "in" f, content)) names);
     dirs := {[ "in" ]}; trace := [] |}.

(** The dispatch rounds of a run, each with the counter handed to the
    workers and the size of the batch, and the number of files written
    below a directory. *)
Definition dispatch_rounds (events : list event) : list (option Z * nat) :=
  flat_map (λ e, match e with
                 | PoolMap _ counter batch => [(counter, length batch)]
                 | _ => []
                 end) events.
Definition written_below (directory : string) (events : list event) : nat :=
  length (List.filter (λ e, match e with
                            | FileWritten path _ => Py.startswith (directory +:+ "/") path
                            | _ => false
                            end) events).

Definition empty_world : World :=
  {| clock := 0; rng_pos := 0; files := ∅; dirs := ∅; trace := [] |}.

(** ** Input normalisation: [load_input_urls] *)





(** The characters of a string, and the warnings logged so far. *)
Definition chars (s : string) : list ascii := list_ascii_of_string s.

(** ** Notions used in the further properties *)

(** The URLs still queued, domain after domain. *)
Definition queued (domain_dict : gmap string (list string)) : list string :=
  concat (map_to_list domain_dict).*2.

(** A counter moved on by [n] files. *)
Definition counter_plus (counter : option Z) (n : nat) : option Z :=
  match counter with
  | Some c => Some (c + Z.of_nat n)
  | None => None
  end.

(** Options that print results on standard output and keep no backup. *)
Definition stdout_args : Args := {|
  xml := false; xmltei := false; csv := false; json := false;
  output_format := "txt"; hash_as_name := false; keep_dirs := false;
  outputdir := None; backup_dir := None; inputdir := "in"; URL := None;
  parallel := None; list_only := false; archived := false; blacklist := ∅;
  timeout := true; fast := false; nocomments := false; notables := false;
  formatting := false; with_metadata := false; validate := false;
  deduplicate := false; target_language := None |}.

(** The batches handed to the process pool so far, each with the counter
    the workers get. *)
Definition batch_of (e : event) : list (option Z * list string) :=
  match e with
  | PoolMap _ counter batch => [(counter, batch)]
  | _ => []
  end.
Definition dispatched (w : World) : list (option Z * list string) :=
  flat_map batch_of (trace w).

(** Nothing but the position of the random generator differs between two
    worlds; a path is unused in a world. *)
Definition same_but_rng (w w' : World) : Prop :=
  clock w' = clock w ∧ files w' = files w ∧ dirs w' = dirs w ∧ trace w' = trace w.
Definition unused (p : string) (w : World) : Prop :=
  (p ∉ dirs w) ∧ (p ∉ dom (files w)).

(** Standard-output options with the retry through the archive switched
    on, and with the list-only mode switched on. *)
Definition retry_args : Args := {|
  xml := false; xmltei := false; csv := false; json := false;
  output_format := "txt"; hash_as_name := false; keep_dirs := false;
  outputdir := None; backup_dir := None; inputdir := "in"; URL := None;
  parallel := None; list_only := false; archived := true; blacklist := ∅;
  timeout := false; fast := false; nocomments := false; notables := false;
  formatting := false; with_metadata := false; validate := false;
  deduplicate := false; target_language := None |}.
Definition list_args : Args := {|
  xml := false; xmltei := false; csv := false; json := false;
  output_format := "txt"; hash_as_name := false; keep_dirs := false;
  outputdir := None; backup_dir := None; inputdir := "in"; URL := None;
  parallel := None; list_only := true; archived := false; blacklist := ∅;
  timeout := false; fast := false; nocomments := false; notables := false;
  formatting := false; with_metadata := false; validate := false;
  deduplicate := false; target_language := None |}.

(** The reversed counterpart of [strip_extension]. *)
Definition strip_extension_rev (r : list ascii) : list ascii :=
  match r with
  | c :: r0 => if ascii_dec c "010" then c :: strip_ext_rev r0 else strip_ext_rev (c :: r0)
  | [] => []
  end.

(** Arguments that mirror the input tree below [out], as JSON. *)
Definition mirror_args : Args := {|
  xml := false; xmltei := false; csv := false; json := true;
  output_format := "txt"; hash_as_name := true; keep_dirs := true;
  outputdir := Some "out"; backup_dir := None; inputdir := "in"; URL := None;
  parallel := None; list_only := false; archived := false; blacklist := ∅;
  timeout := false; fast := false; nocomments := false; notables := false;
  formatting := false; with_metadata := false; validate := false;
  deduplicate := false; target_language := None |}.

(** * Properties *)

(** ** Output sharding *)




(** ** The blacklist *)

Lemma load_blacklist_line_mono (bl : gset string) (line x : string) :
  x ∈ bl → x ∈ load_blacklist_line bl line.
Proof.
  intros Hx. unfold load_blacklist_line.
  destruct (Py.startswith "https" (Py.strip line)); set_solver.
Qed.

Lemma load_blacklist_fold_mono (lines : list string) (bl : gset string) (x : string) :
  x ∈ bl → x ∈ foldl load_blacklist_line bl lines.
Proof.
  revert bl. induction lines as [|l lines IH]; intros bl Hx; simpl; [done|].
  apply IH. by apply load_blacklist_line_mono.
Qed.

Lemma load_blacklist_line_http (bl : gset string) (line rest : string) :
  Py.strip line = "http://" +:+ rest →
  "http://" +:+ rest ∈ load_blacklist_line bl line
  ∧ "https://" +:+ rest ∈ load_blacklist_line bl line.
Proof.
  intros Hs. unfold load_blacklist_line. rewrite Hs. simpl.
  unfold Py.re_sub_prefix. simpl. set_solver.
Qed.

Lemma load_blacklist_line_https (bl : gset string) (line rest : string) :
  Py.strip line = "https://" +:+ rest →
  "http://" +:+ rest ∈ load_blacklist_line bl line
  ∧ "https://" +:+ rest ∈ load_blacklist_line bl line.
Proof.
  intros Hs. unfold load_blacklist_line. rewrite Hs. simpl.
  unfold Py.re_sub_prefix. simpl. set_solver.
Qed.

Lemma load_blacklist_fold_both (lines : list string) (bl : gset string)
    (line rest : string) :
  line ∈ lines →
  Py.strip line = "http://" +:+ rest ∨ Py.strip line = "https://" +:+ rest →
  "http://" +:+ rest ∈ foldl load_blacklist_line bl lines
  ∧ "https://" +:+ rest ∈ foldl load_blacklist_line bl lines.
Proof.
  intros Hin Hs. revert bl.
  induction lines as [|l lines IH]; intros bl; [by apply elem_of_nil in Hin|].
  apply elem_of_cons in Hin as [->|Hin]; simpl.
  - assert ("http://" +:+ rest ∈ load_blacklist_line bl l
            ∧ "https://" +:+ rest ∈ load_blacklist_line bl l) as [H1 H2].
    { destruct Hs as [Hs|Hs];
        [by apply load_blacklist_line_http | by apply load_blacklist_line_https]. }
    split; by apply load_blacklist_fold_mono.
  - by apply IH.
Qed.

(** C7: whenever a line of the blacklist file, once stripped, is an
    [http://] or an [https://] URL, the set [load_blacklist] returns holds
    both the [http://] and the [https://] form of it, whichever scheme the
    line had. *)
Theorem load_blacklist_both_schemes (lines : list string) (line rest : string) :
  line ∈ lines →
  Py.strip line = "http://" +:+ rest ∨ Py.strip line = "https://" +:+ rest →
  "http://" +:+ rest ∈ load_blacklist lines
  ∧ "https://" +:+ rest ∈ load_blacklist lines.
Proof. apply load_blacklist_fold_both. Qed.

Lemma load_blacklist_both_schemes_witness :
  "http://a.org/x" ∈ load_blacklist [" https://a.org/x"; "http://b.org"]
  ∧ "https://a.org/x" ∈ load_blacklist [" https://a.org/x"; "http://b.org"].
Proof.
  apply (load_blacklist_both_schemes
           [" https://a.org/x"; "http://b.org"] " https://a.org/x" "a.org/x").
  - apply elem_of_cons. by left.
  - right. reflexivity.
Defined.


(** ** The safety gate *)

Lemma extract_calls_add_stderr (msg : string) (w : World) :
  extract_calls (add_event (Stderr msg) w) = extract_calls w.
Proof.
  unfold extract_calls, add_event. simpl.
  rewrite List.filter_app. simpl. apply app_nil_r.
Qed.

Lemma examine_rejected_eq (E : Env) (htmlstring : option string) (args : Args)
    (url : option string) (w : World) :
  rejected E htmlstring →
  examine E htmlstring args url w
    = Ok None (add_event (Stderr (rejection_message E htmlstring)) w).
Proof.
  intros Hrej. destruct htmlstring as [html|]; simpl in *; [|done].
  unfold examine, rejection_message.
  destruct (Py.slen html >? MAX_FILE_SIZE E) eqn:Hbig; [done|].
  destruct (Py.slen html <? MIN_FILE_SIZE E) eqn:Hsmall; [done|].
  apply Z.ltb_ge in Hsmall. rewrite Z.gtb_ltb in Hbig. apply Z.ltb_ge in Hbig. lia.
Qed.

(** C9: a document that is null, larger than the maximum or smaller than
    the minimum makes [examine] return [None]; the only thing that happens
    is one message on the diagnostic stream, so the extractor is not called
    and no file is written; and [write_result] on that [None] result leaves
    the world as it is, whatever its other arguments. *)
Theorem examine_rejects (E : Env) (htmlstring : option string) (args : Args)
    (url : option string) (w : World) :
  rejected E htmlstring →
  ∃ w', examine E htmlstring args url w = Ok None w'
    ∧ trace w' = trace w ++ [Stderr (rejection_message E htmlstring)]
    ∧ extract_calls w' = extract_calls w
    ∧ files w' = files w
    ∧ ∀ orig_filename counter new_filename,
        write_result E None args orig_filename counter new_filename w' = Ok tt w'.
Proof.
  intros Hrej. eexists. split; [by apply examine_rejected_eq|].
  split; [done|]. split; [apply extract_calls_add_stderr|]. by split.
Qed.

Lemma examine_rejects_witness :
  ∃ w', examine (stub_env 200 []) (Some "<html>") stub_args None empty_world = Ok None w'
    ∧ trace w' = [Stderr ("ERROR: file too small" +:+ nl)]
    ∧ extract_calls w' = []
    ∧ files w' = ∅
    ∧ ∀ orig_filename counter new_filename,
        write_result (stub_env 200 []) None stub_args orig_filename counter new_filename w'
          = Ok tt w'.
Proof.
  apply (examine_rejects (stub_env 200 []) (Some "<html>") stub_args None empty_world).
  right. vm_compute. reflexivity.
Defined.

(** ** The URL pipeline never shards *)

Lemma list_pop_nil {A} : list_pop (@nil A) = None.
Proof. reflexivity. Qed.

Lemma list_pop_snoc {A} (l : list A) (x : A) : list_pop (l ++ [x]) = Some (x, l).
Proof. unfold list_pop. by rewrite last_snoc, removelast_last. Qed.

Lemma list_pop_Some {A} (l l' : list A) (x : A) :
  list_pop l = Some (x, l') → l = l' ++ [x].
Proof.
  destruct l as [|y l0] using rev_ind; [done|].
  rewrite list_pop_snoc. by intros [= <- <-].
Qed.

Lemma list_pop_None {A} (l : list A) : list_pop l = None → l = [].
Proof.
  destruct l as [|y l0] using rev_ind; [done|]. by rewrite list_pop_snoc.
Qed.

(** With as many iterations as there are URLs, the partitioning loop ends
    normally, and it ends with [input_urls] empty. *)
Lemma partition_loop_drains (E : Env) (fuel : nat) (input_urls : list string)
    (domain_dict : gmap string (list string)) (w : World) :
  (length input_urls ≤ fuel)%nat →
  ∃ dd, partition_loop E fuel input_urls domain_dict w = Ok ([], dd) w.
Proof.
  revert input_urls domain_dict.
  induction fuel as [|fuel IH]; intros input_urls domain_dict Hlen.
  - destruct input_urls; [|simpl in Hlen; lia]. by eexists.
  - destruct (list_pop input_urls) as [[url rest]|] eqn:Hpop.
    + apply list_pop_Some in Hpop as Hl. subst input_urls.
      rewrite length_app in Hlen. simpl in Hlen.
      simpl. rewrite list_pop_snoc. apply IH. lia.
    + apply list_pop_None in Hpop. subst. by eexists.
Qed.

(** C10: whatever list of URLs reaches the partitioning step, the counter
    [url_processing_pipeline] computes afterwards is [None] (the shard size
    being non-negative): the loop has emptied [input_urls] before its
    length is compared with [MAX_FILES_PER_DIRECTORY].  The pipeline
    therefore runs its executor with the counter [None]. *)
Theorem url_pipeline_counter_none (E : Env) (args : Args) (input_urls : list string)
    (sleeptime : Z) (w : World) :
  0 ≤ MAX_FILES_PER_DIRECTORY E →
  (∃ dd, url_pipeline_prepare E input_urls w = Ok (dd, None) w)
  ∧ (list_only args = false →
     url_processing_pipeline E args input_urls sleeptime w
     = (let* urls := url_processing_checks E (blacklist args) input_urls in
        let* '(domain_dict, _) := url_pipeline_prepare E urls in
        url_pipeline_execute E args sleeptime domain_dict None) w).
Proof.
  intros Hmax.
  assert (Hprep : ∀ l v, ∃ dd, url_pipeline_prepare E l v = Ok (dd, None) v).
  { intros l v. unfold url_pipeline_prepare, bind.
    destruct (partition_loop_drains E (length l) l ∅ v) as [dd ->]; [lia|].
    exists dd. unfold Py.len. simpl.
    rewrite Z.gtb_ltb. change (Z.of_nat 0) with 0.
    destruct (Z.ltb_spec (MAX_FILES_PER_DIRECTORY E) 0); [lia|done]. }
  split; [apply Hprep|].
  intros Hlist. unfold url_processing_pipeline, bind. rewrite Hlist.
  destruct (url_processing_checks E (blacklist args) input_urls w) as [urls v|e v|]; [|done..].
  destruct (Hprep urls v) as [dd ->]. done.
Qed.

Lemma url_pipeline_counter_none_witness :
  ∃ dd, url_pipeline_prepare (stub_env 2 [])
          ["http://a.org/1"; "http://a.org/2"; "http://a.org/3"] empty_world
        = Ok (dd, None) empty_world.
Proof.
  refine (proj1 (url_pipeline_counter_none (stub_env 2 []) stub_args
                   ["http://a.org/1"; "http://a.org/2"; "http://a.org/3"] 0
                   empty_world _)).
  simpl. lia.
Defined.


(** ** The backoff scheduler *)

Lemma chosen_domain_exists (E : Env) (domain_dict : gmap string (list string))
    (w : World) :
  domain_dict ≠ ∅ →
  ∃ domain queue, chosen_domain E domain_dict w = Some domain
                  ∧ domain_dict !! domain = Some queue.
Proof.
  intros Hne. unfold chosen_domain, keys.
  assert (Hlen : (0 < length (map_to_list domain_dict).*1)%nat).
  { rewrite length_fmap. destruct (map_to_list domain_dict) eqn:Hl; [|simpl; lia].
    by apply map_to_list_empty_iff in Hl. }
  destruct (lookup_lt_is_Some_2 (map_to_list domain_dict).*1
              (random_source E (rng_pos w) mod length (map_to_list domain_dict).*1)%nat)
    as [domain Hd].
  { apply Nat.mod_upper_bound. lia. }
  exists domain. rewrite Hd.
  apply list_elem_of_lookup_2, list_elem_of_fmap in Hd as [[d q] [-> Hin]].
  apply elem_of_map_to_list in Hin. by exists q.
Qed.

Lemma chosen_domain_queued (E : Env) (domain_dict : gmap string (list string))
    (w : World) (domain : string) :
  chosen_domain E domain_dict w = Some domain → is_Some (domain_dict !! domain).
Proof.
  unfold chosen_domain, keys. intros Hd.
  apply list_elem_of_lookup_2, list_elem_of_fmap in Hd as [[d q] [-> Hin]].
  apply elem_of_map_to_list in Hin. by exists q.
Qed.

(** What one draw returns, in full. *)
Lemma draw_backoff_url_run (E : Env) (domain_dict : gmap string (list string))
    (backoff_dict : gmap string Z) (sleeptime i : Z) (w : World)
    (domain url : string) (queue rest : list string) :
  chosen_domain E domain_dict w = Some domain →
  domain_dict !! domain = Some queue →
  list_pop queue = Some (url, rest) →
  0 ≤ sleeptime →
  let hit := in_window backoff_dict sleeptime (clock w) domain in
  let fire := hit && (i + 1 >=? Z.of_nat (size domain_dict) * 3) in
  let w' := if fire then paused sleeptime domain (next_rng w) else next_rng w in
  draw_backoff_url E domain_dict backoff_dict sleeptime i w
  = Ok (url, queue_after domain_dict domain rest,
        registry_after backoff_dict domain rest (clock w'),
        if hit then (if fire then 0 else i + 1) else i) w'.
Proof.
  intros Hch Hq Hpop Hs. unfold chosen_domain in Hch.
  unfold draw_backoff_url, bind, random_choice. rewrite Hch.
  unfold backoff_safeguard, in_window, bind, datetime_now. simpl.
  destruct (backoff_dict !! domain) as [last|] eqn:Hlast; simpl.
  - destruct (clock w - last <? sleeptime) eqn:Hwin; simpl.
    + destruct (i + 1 >=? Z.of_nat (size domain_dict) * 3) eqn:Hfire; simpl.
      * unfold sleep, LOGGER, emit, elapse, bind.
        destruct (Z.ltb_spec sleeptime 0) as [?|_]; [lia|].
        rewrite Hq, Hpop. by destruct rest.
      * unfold ret. rewrite Hq, Hpop. by destruct rest.
    + unfold ret. rewrite Hq, Hpop. by destruct rest.
  - unfold ret. rewrite Hq, Hpop. by destruct rest.
Qed.


Lemma list_pop_nonempty {A} (q : list A) :
  q ≠ [] → ∃ x rest, list_pop q = Some (x, rest) ∧ q = rest ++ [x].
Proof.
  destruct q as [|x rest _] using rev_ind; [done|].
  intros _. exists x, rest. by rewrite list_pop_snoc.
Qed.

Lemma pauses_paused (sleeptime : Z) (domain : string) (w : World) :
  pauses (paused sleeptime domain w) = pauses w ++ [Slept sleeptime].
Proof.
  unfold pauses, paused, advance, add_event. simpl.
  rewrite <- app_assoc, List.filter_app. reflexivity.
Qed.

(** A draw succeeds on a non-empty queue mapping without empty queues. *)
Lemma draw_backoff_url_total (E : Env) (domain_dict : gmap string (list string))
    (backoff_dict : gmap string Z) (sleeptime i : Z) (w : World) :
  domain_dict ≠ ∅ → queues_nonempty domain_dict → 0 ≤ sleeptime →
  ∃ domain url rest,
    chosen_domain E domain_dict w = Some domain
    ∧ domain_dict !! domain = Some (rest ++ [url])
    ∧ let hit := in_window backoff_dict sleeptime (clock w) domain in
      let fire := hit && (i + 1 >=? Z.of_nat (size domain_dict) * 3) in
      let w' := if fire then paused sleeptime domain (next_rng w) else next_rng w in
      draw_backoff_url E domain_dict backoff_dict sleeptime i w
      = Ok (url, queue_after domain_dict domain rest,
            registry_after backoff_dict domain rest (clock w'),
            if hit then (if fire then 0 else i + 1) else i) w'.
Proof.
  intros Hne Hq Hs.
  destruct (chosen_domain_exists E domain_dict w Hne) as (domain & queue & Hch & Hlk).
  destruct (list_pop_nonempty queue (Hq _ _ Hlk)) as (url & rest & Hpop & ->).
  exists domain, url, rest. split; [done|]. split; [done|].
  by apply draw_backoff_url_run with (queue := rest ++ [url]).
Qed.

(** C4: in a call of [draw_backoff_url] (on a non-empty queue mapping
    without empty queues, with a non-negative [sleeptime]), when the chosen
    domain has a registry entry less than [sleeptime] old, [i] is
    incremented, and if it then is at least three times the number of
    queued domains, one pause of [sleeptime] is made and 0 is returned for
    [i]; when it stays below, [i + 1] is returned and no pause is made;
    when the domain is not inside its window, [i] is returned unchanged and
    no pause is made. *)
Theorem stall_counter_update (E : Env) (domain_dict : gmap string (list string))
    (backoff_dict : gmap string Z) (sleeptime i : Z) (w : World) :
  domain_dict ≠ ∅ → queues_nonempty domain_dict → 0 ≤ sleeptime →
  ∃ domain url domain_dict' backoff_dict' i' w',
    chosen_domain E domain_dict w = Some domain
    ∧ draw_backoff_url E domain_dict backoff_dict sleeptime i w
      = Ok (url, domain_dict', backoff_dict', i') w'
    ∧ (in_window backoff_dict sleeptime (clock w) domain = true →
       3 * Z.of_nat (size domain_dict) ≤ i + 1 →
       i' = 0 ∧ pauses w' = pauses w ++ [Slept sleeptime]
       ∧ clock w' = clock w + sleeptime)
    ∧ (in_window backoff_dict sleeptime (clock w) domain = true →
       i + 1 < 3 * Z.of_nat (size domain_dict) →
       i' = i + 1 ∧ pauses w' = pauses w ∧ clock w' = clock w)
    ∧ (in_window backoff_dict sleeptime (clock w) domain = false →
       i' = i ∧ pauses w' = pauses w ∧ clock w' = clock w).
Proof.
  intros Hne Hq Hs.
  destruct (draw_backoff_url_total E domain_dict backoff_dict sleeptime i w Hne Hq Hs)
    as (domain & url & rest & Hch & _ & Hrun).
  simpl in Hrun. do 6 eexists. split; [exact Hch|]. split; [exact Hrun|].
  destruct (in_window backoff_dict sleeptime (clock w) domain); simpl.
  - destruct (Z.geb_spec (i + 1) (Z.of_nat (size domain_dict) * 3)) as [Hge|Hlt].
    + split; [|split]; [|intros; lia|done].
      intros _ _. split; [done|].
      split; [exact (pauses_paused sleeptime domain (next_rng w))|done].
    + split; [|split]; [intros; lia| |done]. done.
  - split; [done|]. split; [done|]. done.
Qed.


Lemma one_domain_nonempty (urls : list string) : one_domain urls ≠ ∅.
Proof. apply map_non_empty_singleton. Qed.

Lemma one_domain_queues (urls : list string) :
  urls ≠ [] → queues_nonempty (one_domain urls).
Proof.
  intros Hu d q Hlk. unfold one_domain in Hlk.
  apply lookup_singleton_Some in Hlk as [_ <-]. exact Hu.
Qed.

Lemma stall_counter_update_witness :
  ∃ domain url domain_dict' backoff_dict' i' w',
    chosen_domain (stub_env 200 []) (one_domain ["u1"; "u2"]) empty_world = Some domain
    ∧ draw_backoff_url (stub_env 200 []) (one_domain ["u1"; "u2"]) {[ "a.org" := 0 ]}
        10 2 empty_world
      = Ok (url, domain_dict', backoff_dict', i') w'
    ∧ (in_window {[ "a.org" := 0 ]} 10 (clock empty_world) domain = true →
       3 * Z.of_nat (size (one_domain ["u1"; "u2"])) ≤ 2 + 1 →
       i' = 0 ∧ pauses w' = pauses empty_world ++ [Slept 10]
       ∧ clock w' = clock empty_world + 10)
    ∧ (in_window {[ "a.org" := 0 ]} 10 (clock empty_world) domain = true →
       2 + 1 < 3 * Z.of_nat (size (one_domain ["u1"; "u2"])) →
       i' = 2 + 1 ∧ pauses w' = pauses empty_world ∧ clock w' = clock empty_world)
    ∧ (in_window {[ "a.org" := 0 ]} 10 (clock empty_world) domain = false →
       i' = 2 ∧ pauses w' = pauses empty_world ∧ clock w' = clock empty_world).
Proof.
  apply (stall_counter_update (stub_env 200 []) (one_domain ["u1"; "u2"])
           {[ "a.org" := 0 ]} 10 2 empty_world).
  - apply one_domain_nonempty.
  - by apply one_domain_queues.
  - lia.
Defined.

(** What a successful draw did, read off its result. *)
Lemma draw_backoff_url_inv (E : Env) (domain_dict domain_dict' : gmap string (list string))
    (backoff_dict backoff_dict' : gmap string Z) (sleeptime i i' : Z) (w w' : World)
    (url : string) :
  draw_backoff_url E domain_dict backoff_dict sleeptime i w
    = Ok (url, domain_dict', backoff_dict', i') w' →
  ∃ domain queue rest,
    chosen_domain E domain_dict w = Some domain
    ∧ domain_dict !! domain = Some queue
    ∧ list_pop queue = Some (url, rest)
    ∧ domain_dict' = queue_after domain_dict domain rest
    ∧ backoff_dict' = registry_after backoff_dict domain rest (clock w')
    ∧ backoff_safeguard domain_dict backoff_dict sleeptime i domain (next_rng w)
      = Ok i' w'.
Proof.
  unfold draw_backoff_url, bind, random_choice, chosen_domain.
  destruct (keys domain_dict !! _) as [domain|] eqn:Hch; [|done].
  destruct (backoff_safeguard domain_dict backoff_dict sleeptime i domain (next_rng w))
    as [i1 w1|e w1|] eqn:Hsafe; [|done..].
  destruct (domain_dict !! domain) as [queue|] eqn:Hq; [|done].
  destruct (list_pop queue) as [[u rest]|] eqn:Hpop; [|done].
  destruct rest as [|r rest].
  - intros [= <- <- <- <- <-]. by exists domain, queue, [].
  - unfold datetime_now, ret. intros [= <- <- <- <- <-].
    by exists domain, queue, (r :: rest).
Qed.

Lemma registry_inv_draw (domain_dict : gmap string (list string))
    (backoff_dict : gmap string Z) (domain : string) (rest : list string) (now : Z) :
  registry_inv domain_dict backoff_dict →
  registry_inv (queue_after domain_dict domain rest)
               (registry_after backoff_dict domain rest now).
Proof.
  intros Hinv d. destruct rest as [|r rest]; simpl.
  - destruct (decide (d = domain)) as [->|Hne].
    + rewrite lookup_delete_eq. by intros [? ?].
    + rewrite !lookup_delete_ne by done. apply Hinv.
  - destruct (decide (d = domain)) as [->|Hne].
    + intros _. exists (r :: rest). by rewrite lookup_insert_eq.
    + rewrite !lookup_insert_ne by done. apply Hinv.
Qed.

Lemma reachable_registry_inv (E : Env) (sleeptime : Z)
    (domain_dict : gmap string (list string)) (backoff_dict : gmap string Z) :
  reachable E sleeptime domain_dict backoff_dict → registry_inv domain_dict backoff_dict.
Proof.
  induction 1 as [dd|dd bd i w url dd' bd' i' w' _ IH Hdraw].
  - intros d [t Ht]. by rewrite lookup_empty in Ht.
  - apply draw_backoff_url_inv in Hdraw
      as (domain & queue & rest & _ & _ & _ & -> & -> & _).
    by apply registry_inv_draw.
Qed.

(** C5: a call of [draw_backoff_url] (on a non-empty queue mapping without
    empty queues, with a non-negative [sleeptime]) returns the last URL of
    the chosen domain's queue; if that was its only URL, the domain is in
    neither the returned queue mapping nor the returned registry; otherwise
    it keeps a non-empty queue and its registry entry is the time of this
    dispatch.  The draw preserves [registry_inv], and every state a run of
    draws reaches from an empty registry satisfies it: a domain of the
    registry always has a non-empty queue. *)
Theorem draw_cleans_registries (E : Env) (domain_dict : gmap string (list string))
    (backoff_dict : gmap string Z) (sleeptime i : Z) (w : World) :
  domain_dict ≠ ∅ → queues_nonempty domain_dict → 0 ≤ sleeptime →
  (∃ domain queue url domain_dict' backoff_dict' i' w',
     chosen_domain E domain_dict w = Some domain
     ∧ domain_dict !! domain = Some queue
     ∧ last queue = Some url
     ∧ draw_backoff_url E domain_dict backoff_dict sleeptime i w
       = Ok (url, domain_dict', backoff_dict', i') w'
     ∧ (length queue = 1%nat →
        domain_dict' !! domain = None ∧ backoff_dict' !! domain = None)
     ∧ (length queue ≠ 1%nat →
        backoff_dict' !! domain = Some (clock w')
        ∧ ∃ q', domain_dict' !! domain = Some q' ∧ q' ≠ [])
     ∧ (registry_inv domain_dict backoff_dict →
        registry_inv domain_dict' backoff_dict'))
  ∧ (∀ dd bd, reachable E sleeptime dd bd → registry_inv dd bd).
Proof.
  intros Hne Hq Hs. split; [|intros dd bd; apply reachable_registry_inv].
  destruct (draw_backoff_url_total E domain_dict backoff_dict sleeptime i w Hne Hq Hs)
    as (domain & url & rest & Hch & Hlk & Hrun).
  simpl in Hrun. exists domain, (rest ++ [url]), url. do 4 eexists.
  split; [exact Hch|]. split; [exact Hlk|]. split; [apply last_snoc|].
  split; [exact Hrun|].
  rewrite length_app. simpl.
  split; [|split]; [| |apply registry_inv_draw].
  - intros Hlen. destruct rest; [|simpl in Hlen; lia].
    simpl. by rewrite !lookup_delete_eq.
  - intros Hlen. destruct rest as [|r rest]; [simpl in Hlen; lia|].
    simpl. rewrite !lookup_insert_eq. split; [done|]. by exists (r :: rest).
Qed.

Lemma draw_cleans_registries_witness :
  (∃ domain queue url domain_dict' backoff_dict' i' w',
     chosen_domain (stub_env 200 []) (one_domain ["u1"]) empty_world = Some domain
     ∧ one_domain ["u1"] !! domain = Some queue
     ∧ last queue = Some url
     ∧ draw_backoff_url (stub_env 200 []) (one_domain ["u1"]) {[ "a.org" := 0 ]}
         10 0 empty_world
       = Ok (url, domain_dict', backoff_dict', i') w'
     ∧ (length queue = 1%nat →
        domain_dict' !! domain = None ∧ backoff_dict' !! domain = None)
     ∧ (length queue ≠ 1%nat →
        backoff_dict' !! domain = Some (clock w')
        ∧ ∃ q', domain_dict' !! domain = Some q' ∧ q' ≠ [])
     ∧ (registry_inv (one_domain ["u1"]) {[ "a.org" := 0 ]} →
        registry_inv domain_dict' backoff_dict'))
  ∧ (∀ dd bd, reachable (stub_env 200 []) 10 dd bd → registry_inv dd bd).
Proof.
  apply (draw_cleans_registries (stub_env 200 []) (one_domain ["u1"])
           {[ "a.org" := 0 ]} 10 0 empty_world).
  - apply one_domain_nonempty.
  - by apply one_domain_queues.
  - lia.
Defined.


(** ** The executors *)

(** C1, as stated, fails: with one domain holding five URLs and four
    workers, the number of distinct domains (1) is below the worker count,
    yet the concurrent executor does not hand over to the sequential one:
    it dispatches a batch of four downloads to the thread pool, and its
    outcome differs from the sequential executor's. *)
Lemma few_domains_not_delegated :
  one_domain ["u1"; "u2"; "u3"; "u4"; "u5"] ≠ ∅
  ∧ Z.of_nat (size (one_domain ["u1"; "u2"; "u3"; "u4"; "u5"]))
    < Py.or_default (parallel stub_args) (DOWNLOAD_THREADS (stub_env 200 []))
  ∧ multi_threaded_processing (stub_env 200 [])
      (one_domain ["u1"; "u2"; "u3"; "u4"; "u5"]) stub_args 10 None empty_world
    ≠ single_threaded_processing (stub_env 200 [])
        (one_domain ["u1"; "u2"; "u3"; "u4"; "u5"]) ∅ stub_args 10 None empty_world
  ∧ In (ThreadPool 4 ["u5"; "u4"; "u3"; "u2"])
       (events_of (multi_threaded_processing (stub_env 200 [])
                     (one_domain ["u1"; "u2"; "u3"; "u4"; "u5"]) stub_args 10 None
                     empty_world)).
Proof.
  split; [apply one_domain_nonempty|]. split; [by vm_compute|].
  split.
  - intros Heq. apply (f_equal events_of) in Heq. vm_compute in Heq. discriminate Heq.
  - vm_compute. tauto.
Qed.

(** C1, amended: at the top of an iteration of the loop of
    [multi_threaded_processing], when the number of distinct URLs left in
    the queues is below the worker count, the executor runs
    [single_threaded_processing] on what is left, with the registry it has
    built, and returns its result; in particular the whole call does so
    when this holds at the start. *)
Theorem multi_loop_delegates (E : Env) (fuel : nat)
    (domain_dict : gmap string (list string)) (backoff_dict : gmap string Z)
    (args : Args) (sleeptime : Z) (counter : option Z) (i : Z)
    (errors : list string) (download_threads : Z) (w : World) :
  domain_dict ≠ ∅ →
  Z.of_nat (size (distinct_urls domain_dict)) < download_threads →
  multi_loop E (S fuel) domain_dict backoff_dict args sleeptime counter i errors
    download_threads w
  = single_threaded_processing E domain_dict backoff_dict args sleeptime counter w.
Proof.
  intros Hne Hfew. simpl.
  rewrite bool_decide_eq_false_2 by done.
  by destruct (Z.ltb_spec (Z.of_nat (size (distinct_urls domain_dict))) download_threads);
    [|lia].
Qed.

Lemma multi_loop_delegates_witness :
  multi_loop (stub_env 200 []) 3 (one_domain ["u1"; "u2"]) ∅ stub_args 10 None 0 [] 4
    empty_world
  = single_threaded_processing (stub_env 200 []) (one_domain ["u1"; "u2"]) ∅ stub_args
      10 None empty_world.
Proof.
  apply (multi_loop_delegates (stub_env 200 []) 2 (one_domain ["u1"; "u2"]) ∅ stub_args
           10 None 0 [] 4 empty_world).
  - apply one_domain_nonempty.
  - vm_compute. reflexivity.
Defined.

(** C3 fails on the code: six domains with one URL each, four workers and
    a fetcher that fails on every URL.  The sequential executor reports all
    six URLs; the concurrent executor reports two, because the four
    failures of its first batch are overwritten when it hands the rest
    over to the sequential executor. *)
Lemma executors_error_sets_differ :
  ∃ errors_seq errors_conc,
    result_of (single_threaded_processing (stub_env 200 []) six_domains ∅ stub_args
                 10 None empty_world) = Some (errors_seq, None)
    ∧ result_of (multi_threaded_processing (stub_env 200 []) six_domains stub_args
                   10 None empty_world) = Some (errors_conc, None)
    ∧ (∀ u, u ∈ six_urls → u ∈ errors_seq)
    ∧ length errors_conc = 2%nat
    ∧ ∃ u, u ∈ errors_seq ∧ u ∉ errors_conc.
Proof.
  exists ["http://c.org/1"; "http://e.org/1"; "http://a.org/1";
          "http://f.org/1"; "http://b.org/1"; "http://d.org/1"],
         ["http://b.org/1"; "http://d.org/1"].
  split; [vm_compute; reflexivity|]. split; [vm_compute; reflexivity|].
  split; [|split; [reflexivity|]].
  - apply Forall_forall. apply (bool_decide_unpack _). vm_compute. exact I.
  - exists "http://c.org/1". split; apply (bool_decide_unpack _); vm_compute; exact I.
Qed.

(** *** The loops of the executors end

    The executors give their loops [pending domain_dict + 1] iterations.
    Every draw takes one URL out of the queues, so this is enough: with
    any larger number the outcome is the same. *)

Lemma pending_perm (l l' : list (string * list string)) :
  l ≡ₚ l' → length (concat l.*2) = length (concat l'.*2).
Proof.
  induction 1 as [|x l l' _ IH|x y l|l l' l'' _ IH1 _ IH2]; simpl.
  - done.
  - rewrite !length_app. f_equal. exact IH.
  - rewrite !length_app. lia.
  - congruence.
Qed.

Lemma pending_cons (d : string) (q : list string) (l : list (string * list string)) :
  length (concat ((d, q) :: l).*2) = (length q + length (concat l.*2))%nat.
Proof. simpl. by rewrite length_app. Qed.

Lemma pending_delete (domain_dict : gmap string (list string)) (domain : string)
    (queue : list string) :
  domain_dict !! domain = Some queue →
  pending domain_dict = (length queue + pending (delete domain domain_dict))%nat.
Proof.
  intros Hq. unfold pending.
  rewrite <- (pending_perm _ _ (map_to_list_delete domain_dict domain queue Hq)).
  apply pending_cons.
Qed.

Lemma pending_queue_after (domain_dict : gmap string (list string))
    (domain url : string) (queue rest : list string) :
  domain_dict !! domain = Some queue →
  list_pop queue = Some (url, rest) →
  pending domain_dict = S (pending (queue_after domain_dict domain rest)).
Proof.
  intros Hq Hpop. apply list_pop_Some in Hpop. subst queue.
  rewrite (pending_delete _ _ _ Hq), length_app. simpl.
  destruct rest as [|r rest]; simpl; [lia|].
  rewrite <- (insert_delete_eq domain_dict).
  unfold pending at 2.
  rewrite (pending_perm _ _ (map_to_list_insert (delete domain domain_dict) domain
                               (r :: rest) (lookup_delete_eq _ _))).
  rewrite pending_cons. unfold pending. simpl. lia.
Qed.

Lemma draw_backoff_url_pending (E : Env) (dd dd1 : gmap string (list string))
    (bd bd1 : gmap string Z) (sleeptime i i1 : Z) (w w1 : World) (url : string) :
  draw_backoff_url E dd bd sleeptime i w = Ok (url, dd1, bd1, i1) w1 →
  pending dd = S (pending dd1).
Proof.
  intros Hdraw.
  apply draw_backoff_url_inv in Hdraw
    as (domain & queue & rest & _ & Hq & Hpop & -> & _ & _).
  by eapply pending_queue_after.
Qed.

Lemma single_loop_fuel (E : Env) (fuel fuel' : nat)
    (domain_dict : gmap string (list string)) (backoff_dict : gmap string Z)
    (args : Args) (sleeptime : Z) (counter : option Z) (i : Z)
    (errors : list string) (w : World) :
  (pending domain_dict < fuel)%nat → (pending domain_dict < fuel')%nat →
  single_loop E fuel domain_dict backoff_dict args sleeptime counter i errors w
  = single_loop E fuel' domain_dict backoff_dict args sleeptime counter i errors w.
Proof.
  revert fuel' domain_dict backoff_dict counter i errors w.
  induction fuel as [|fuel IH]; intros fuel' dd bd counter i errors w Hf Hf'; [lia|].
  destruct fuel' as [|fuel']; [lia|]. simpl.
  destruct (bool_decide (dd = ∅)); [done|]. unfold bind.
  destruct (draw_backoff_url E dd bd sleeptime i w)
    as [[[[url dd1] bd1] i1] w1|e w1|] eqn:Hdraw; [|done..].
  apply draw_backoff_url_pending in Hdraw.
  destruct (fetch E url w1) as [[html|] w2|e w2|]; [| |done..].
  - destruct (process_result E html args url counter w2) as [c w3|e w3|]; [|done..].
    apply IH; lia.
  - destruct (LOGGER "debug" ("No result for URL: " +:+ url) w2) as [[] w3|e w3|];
      [|done..].
    apply IH; lia.
Qed.

Lemma populate_buffer_pending (E : Env) (n : nat) (bufferlist bufferlist1 : list string)
    (dd dd1 : gmap string (list string)) (bd bd1 : gmap string Z) (sleeptime i i1 : Z)
    (w w1 : World) :
  populate_buffer E n bufferlist dd bd sleeptime i w = Ok (bufferlist1, dd1, bd1, i1) w1 →
  pending dd = (n + pending dd1)%nat.
Proof.
  revert bufferlist dd bd i w.
  induction n as [|n IH]; intros bufferlist dd bd i w; simpl.
  - by intros [= _ <- _ _ _].
  - unfold bind.
    destruct (draw_backoff_url E dd bd sleeptime i w)
      as [[[[url dd2] bd2] i2] w2|e w2|] eqn:Hdraw; [|done..].
    apply draw_backoff_url_pending in Hdraw. intros Hrest.
    apply IH in Hrest. lia.
Qed.

Lemma multi_loop_fuel (E : Env) (fuel fuel' : nat)
    (domain_dict : gmap string (list string)) (backoff_dict : gmap string Z)
    (args : Args) (sleeptime : Z) (counter : option Z) (i : Z)
    (errors : list string) (download_threads : Z) (w : World) :
  (pending domain_dict < fuel)%nat → (pending domain_dict < fuel')%nat →
  multi_loop E fuel domain_dict backoff_dict args sleeptime counter i errors
    download_threads w
  = multi_loop E fuel' domain_dict backoff_dict args sleeptime counter i errors
      download_threads w.
Proof.
  revert fuel' domain_dict backoff_dict counter i errors w.
  induction fuel as [|fuel IH]; intros fuel' dd bd counter i errors w Hf Hf'; [lia|].
  destruct fuel' as [|fuel']; [lia|]. simpl.
  destruct (bool_decide (dd = ∅)); [done|].
  destruct (Z.of_nat (size (distinct_urls dd)) <? download_threads); [done|].
  unfold bind.
  destruct (populate_buffer E (Z.to_nat download_threads) [] dd bd sleeptime i w)
    as [[[[buf dd1] bd1] i1] w1|e w1|] eqn:Hpop; [|done..].
  apply populate_buffer_pending in Hpop.
  unfold thread_pool_fetch.
  destruct (Z.ltb_spec download_threads 1) as [Hlt|Hge]; [done|].
  unfold bind, emit, elapse, ret.
  destruct (handle_results E (as_completed E buf) args counter errors _)
    as [[errors1 counter1] w2|e w2|]; [|done..].
  apply IH; lia.
Qed.

(** ** Politeness *)








(** ** Batches of the file pipeline *)

(** C8 fails on the code: with a shard threshold of 200 and 250 input
    files the pipeline makes two dispatch rounds, but of 201 and 49 files:
    a batch is dispatched once it holds more than 200 files.  The workers
    of the first round get the counter 0 and write into shard 1, those of
    the second round get the counter 250 and write into shard 2, so that
    shard 1 receives 201 files. *)
Lemma file_pipeline_250_files :
  result_of (file_processing_pipeline (stub_env 200 (numbered 250)) stub_args
               (world_with (numbered 250) "0123456789")) = Some tt
  ∧ dispatch_rounds
      (events_of (file_processing_pipeline (stub_env 200 (numbered 250)) stub_args
                    (world_with (numbered 250) "0123456789")))
    = [(Some 0, 201%nat); (Some 250, 49%nat)]
  ∧ result_of (determine_counter_dir (stub_env 200 (numbered 250)) "out" (Some 0)
                 empty_world) = Some "out/1"
  ∧ result_of (determine_counter_dir (stub_env 200 (numbered 250)) "out" (Some 250)
                 empty_world) = Some "out/2"
  ∧ written_below "out/1"
      (events_of (file_processing_pipeline (stub_env 200 (numbered 250)) stub_args
                    (world_with (numbered 250) "0123456789"))) = 201%nat
  ∧ written_below "out/2"
      (events_of (file_processing_pipeline (stub_env 200 (numbered 250)) stub_args
                    (world_with (numbered 250) "0123456789"))) = 49%nat.
Proof.
  split; [vm_compute; reflexivity|]. split; [vm_compute; reflexivity|].
  split; [vm_compute; reflexivity|]. split; [vm_compute; reflexivity|].
  split; vm_compute; reflexivity.
Qed.


(** * Further properties *)

(** ** Strings *)

Lemma append_cons (a : ascii) (s t : string) : String a s +:+ t = String a (s +:+ t).
Proof. reflexivity. Qed.

Lemma append_nil (t : string) : "" +:+ t = t.
Proof. reflexivity. Qed.

Lemma startswith_split (p s : string) :
  Py.startswith p s = true → s = p +:+ Py.drop (String.length p) s.
Proof.
  revert s. induction p as [|a p IH]; intros s; simpl; [done|].
  destruct s as [|b s]; [done|].
  destruct (ascii_dec a b) as [->|]; [|done].
  intros H. rewrite append_cons. f_equal. by apply IH.
Qed.

Lemma startswith_app (p s : string) : Py.startswith p (p +:+ s) = true.
Proof.
  induction p as [|a p IH]; [done|].
  rewrite append_cons. simpl. by destruct (ascii_dec a a).
Qed.

Lemma drop_app (p s : string) : Py.drop (String.length p) (p +:+ s) = s.
Proof. induction p as [|a p IH]; [by destruct s|]. rewrite append_cons. exact IH. Qed.





Lemma append_assoc (a b c : string) : (a +:+ b) +:+ c = a +:+ b +:+ c.
Proof. induction a as [|x a IH]; [done|]. rewrite !append_cons. by f_equal. Qed.

(** ** The URL list loader *)








(** ** What the blacklist holds *)

Lemma startswith_https_literal (rest : string) :
  Py.startswith "https" ("https:" +:+ rest) = true
  ∧ Py.startswith "https" ("http:" +:+ rest) = false.
Proof. rewrite !append_cons. split; reflexivity. Qed.

Lemma load_blacklist_line_members (bl : gset string) (line x : string) :
  x ∈ load_blacklist_line bl line ↔
  x ∈ bl ∨ x = Py.strip line
  ∨ (∃ rest, Py.strip line = "https:" +:+ rest ∧ x = "http:" +:+ rest)
  ∨ (∃ rest, Py.strip line = "http:" +:+ rest ∧ x = "https:" +:+ rest).
Proof.
  unfold load_blacklist_line, Py.re_sub_prefix.
  destruct (Py.startswith "https" (Py.strip line)) eqn:H.
  - destruct (Py.startswith "https:" (Py.strip line)) eqn:H2.
    + apply startswith_split in H2 as Hs.
      rewrite !elem_of_union, !elem_of_singleton. split.
      * intros [[?|?]| ->]; auto. right. right. left. eauto.
      * intros [?|[?|[(rest & Hr & ->)|(rest & Hr & ->)]]]; auto.
        -- right. f_equal. rewrite Hr. by rewrite drop_app.
        -- rewrite Hr in H. by rewrite (proj2 (startswith_https_literal rest)) in H.
    + rewrite !elem_of_union, !elem_of_singleton. split.
      * intros [[?|?]| ->]; auto.
      * intros [?|[?|[(rest & Hr & ->)|(rest & Hr & ->)]]]; auto.
        -- rewrite Hr, startswith_app in H2. done.
        -- rewrite Hr in H. by rewrite (proj2 (startswith_https_literal rest)) in H.
  - destruct (Py.startswith "http:" (Py.strip line)) eqn:H3.
    + apply startswith_split in H3 as Hs.
      rewrite !elem_of_union, !elem_of_singleton. split.
      * intros [[?|?]| ->]; auto. right. right. right. eauto.
      * intros [?|[?|[(rest & Hr & ->)|(rest & Hr & ->)]]]; auto.
        -- rewrite Hr in H. by rewrite (proj1 (startswith_https_literal rest)) in H.
        -- right. f_equal. rewrite Hr. by rewrite drop_app.
    + rewrite !elem_of_union, !elem_of_singleton. split.
      * intros [[?|?]| ->]; auto.
      * intros [?|[?|[(rest & Hr & ->)|(rest & Hr & ->)]]]; auto.
        -- rewrite Hr in H. by rewrite (proj1 (startswith_https_literal rest)) in H.
        -- rewrite Hr, startswith_app in H3. done.
Qed.

Lemma load_blacklist_fold_members (lines : list string) (bl : gset string) (x : string) :
  x ∈ foldl load_blacklist_line bl lines ↔
  x ∈ bl ∨ ∃ line, line ∈ lines
    ∧ (x = Py.strip line
       ∨ (∃ rest, Py.strip line = "https:" +:+ rest ∧ x = "http:" +:+ rest)
       ∨ (∃ rest, Py.strip line = "http:" +:+ rest ∧ x = "https:" +:+ rest)).
Proof.
  revert bl. induction lines as [|l lines IH]; intros bl; simpl.
  - split; [auto|]. intros [?|(line & Hin & _)]; [done|]. by apply elem_of_nil in Hin.
  - rewrite IH, load_blacklist_line_members. split.
    + intros [[?|Hl]|(line & Hin & Hx)]; auto.
      * right. exists l. split; [apply elem_of_cons; auto|done].
      * right. exists line. split; [apply elem_of_cons; auto|done].
    + intros [?|(line & Hin & Hx)]; auto.
      apply elem_of_cons in Hin as [->|Hin]; auto. right. eauto.
Qed.

(** X2: the set [load_blacklist] returns holds every stripped line, and
    nothing but the stripped lines and their variants with the prefix
    [https:] replaced by [http:] or the prefix [http:] replaced by
    [https:]. *)
Theorem load_blacklist_members (lines : list string) (x : string) :
  x ∈ load_blacklist lines ↔
  ∃ line, line ∈ lines
    ∧ (x = Py.strip line
       ∨ (∃ rest, Py.strip line = "https:" +:+ rest ∧ x = "http:" +:+ rest)
       ∨ (∃ rest, Py.strip line = "http:" +:+ rest ∧ x = "https:" +:+ rest)).
Proof.
  unfold load_blacklist. rewrite load_blacklist_fold_members.
  split; [|auto]. intros [Hx|?]; [|done]. by apply not_elem_of_empty in Hx.
Qed.

(** ** Filtering and deduplication of the input URLs *)

Lemma fromkeys_elem (seen : gset string) (l : list string) (u : string) :
  u ∈ fromkeys seen l ↔ u ∈ l ∧ u ∉ seen.
Proof.
  revert seen. induction l as [|x l IH]; intros seen; simpl.
  - split; [by intros ?%elem_of_nil|by intros [?%elem_of_nil _]].
  - destruct (decide (x ∈ seen)) as [Hx|Hx].
    + rewrite IH, elem_of_cons. split; [tauto|].
      intros [[->|?] ?]; [done|tauto].
    + rewrite !elem_of_cons, IH. split.
      * intros [->|[? ?]]; [auto|]. split; [auto|set_solver].
      * intros [[->|?] ?]; [auto|].
        destruct (decide (u = x)) as [->|]; [auto|]. right. split; [done|set_solver].
Qed.

Lemma fromkeys_NoDup (seen : gset string) (l : list string) : NoDup (fromkeys seen l).
Proof.
  revert seen. induction l as [|x l IH]; intros seen; simpl; [constructor|].
  destruct (decide (x ∈ seen)); [apply IH|].
  apply NoDup_cons. split; [|apply IH].
  rewrite fromkeys_elem. set_solver.
Qed.

Lemma fromkeys_sublist (seen : gset string) (l : list string) :
  fromkeys seen l `sublist_of` l.
Proof.
  revert seen. induction l as [|x l IH]; intros seen; simpl; [constructor|].
  destruct (decide (x ∈ seen)); [apply sublist_cons|apply sublist_skip]; apply IH.
Qed.

(** A list without duplicates, none of them seen before, is kept as it
    is. *)
Lemma fromkeys_NoDup_id (seen : gset string) (l : list string) :
  NoDup l → (∀ u, u ∈ l → u ∉ seen) → fromkeys seen l = l.
Proof.
  revert seen. induction l as [|x l IH]; intros seen Hnd Hseen; simpl; [done|].
  apply NoDup_cons in Hnd as [Hx Hnd].
  destruct (decide (x ∈ seen)) as [Hin|_].
  - exfalso. apply (Hseen x); [apply elem_of_cons; auto|done].
  - f_equal. apply IH; [done|]. intros u Hu.
    rewrite not_elem_of_union, not_elem_of_singleton. split.
    + intros ->. done.
    + apply Hseen. apply elem_of_cons. auto.
Qed.

(** X3: [url_processing_checks] returns the input URLs that are not
    blacklisted and that [validate_url] accepts, each one once, in the order
    of the input; an input that needs no filtering and has no duplicates is
    returned as it is.  One error is logged exactly when nothing is left,
    and nothing else happens. *)
Theorem url_processing_checks_spec (E : Env) (blacklist : gset string)
    (input_urls : list string) (w : World) :
  ∃ urls w',
    url_processing_checks E blacklist input_urls w = Ok urls w'
    ∧ NoDup urls
    ∧ (∀ u, u ∈ urls ↔ u ∈ input_urls ∧ (u ∉ blacklist) ∧ validate_url E u = true)
    ∧ (urls `sublist_of` input_urls)
    ∧ (NoDup input_urls →
       (∀ u, u ∈ input_urls → (u ∉ blacklist) ∧ validate_url E u = true) →
       urls = input_urls)
    ∧ (urls = [] →
       w' = add_event (Logged "error" "No URLs to process, invalid or blacklisted input") w)
    ∧ (urls ≠ [] → w' = w).
Proof.
  unfold url_processing_checks.
  set (stage1 := if bool_decide (blacklist ≠ ∅)
                 then filter (λ u, u ∉ blacklist) input_urls else input_urls).
  assert (H1 : stage1 = filter (λ u, u ∉ blacklist) input_urls).
  { unfold stage1. case_bool_decide as Hbl; [done|].
    assert (blacklist = ∅) as -> by (by destruct (decide (blacklist = ∅))).
    clear. induction input_urls as [|x l IH]; [done|].
    rewrite filter_cons_True by set_solver. by f_equal. }
  set (stage2 := match stage1 with
                 | [] => stage1
                 | _ :: _ => filter (λ u, validate_url E u = true) stage1
                 end).
  assert (H2 : stage2 = filter (λ u, validate_url E u = true) stage1).
  { unfold stage2. by destruct stage1. }
  assert (Hmem : ∀ u, u ∈ stage2 ↔
            u ∈ input_urls ∧ (u ∉ blacklist) ∧ validate_url E u = true).
  { intros u. rewrite H2, H1, !list_elem_of_filter. tauto. }
  assert (Hsub : (stage2 `sublist_of` input_urls)).
  { rewrite H2, H1. etrans; apply sublist_filter. }
  assert (Hid : NoDup input_urls →
            (∀ u, u ∈ input_urls → (u ∉ blacklist) ∧ validate_url E u = true) →
            stage2 = input_urls).
  { intros _ Hall. rewrite H2, H1. clear -Hall.
    induction input_urls as [|x l IH]; [done|].
    destruct (Hall x) as [Hb Hv]; [apply elem_of_cons; auto|].
    rewrite filter_cons_True by done. rewrite filter_cons_True by done.
    f_equal. apply IH. intros u Hu. apply Hall. apply elem_of_cons. auto. }
  clearbody stage2. clear H1 H2 stage1.
  destruct stage2 as [|x rest] eqn:Hs.
  - eexists [], _. split; [reflexivity|]. split; [constructor|].
    split; [done|]. split; [done|]. split; [done|]. split; [done|]. done.
  - eexists _, w. split; [reflexivity|]. split; [apply fromkeys_NoDup|].
    split; [|split; [|split; [|split]]].
    + intros u. rewrite fromkeys_elem, Hmem. set_solver.
    + etrans; [apply fromkeys_sublist|done].
    + intros Hnd Hall. rewrite <- (Hid Hnd Hall).
      apply fromkeys_NoDup_id; [|set_solver].
      by rewrite (Hid Hnd Hall).
    + intros Hnil. exfalso.
      assert (Hx : x ∈ fromkeys ∅ (x :: rest)).
      { apply fromkeys_elem. split; [apply elem_of_cons; auto|set_solver]. }
      rewrite Hnil in Hx. by apply elem_of_nil in Hx.
    + done.
Qed.

(** ** The domain-aware processing list *)

Lemma partition_step_lookup (E : Env) (domain_dict : gmap string (list string))
    (url d : string) :
  default [] (alter (λ q, q ++ [url]) (extract_domain E url)
                (if bool_decide (extract_domain E url ∉ dom domain_dict)
                 then <[extract_domain E url := []]> domain_dict
                 else domain_dict) !! d)
  = default [] (domain_dict !! d)
    ++ (if decide (extract_domain E url = d) then [url] else []).
Proof.
  destruct (decide (extract_domain E url = d)) as [<-|Hne].
  - rewrite lookup_alter_eq. case_bool_decide as Hdom.
    + apply not_elem_of_dom in Hdom. by rewrite lookup_insert_eq, Hdom.
    + apply elem_of_dom in Hdom as [q ->]. done.
  - rewrite lookup_alter_ne by done. rewrite app_nil_r.
    case_bool_decide; [by rewrite lookup_insert_ne|done].
Qed.

Lemma partition_step_nonempty (E : Env) (domain_dict : gmap string (list string))
    (url : string) :
  queues_nonempty domain_dict →
  queues_nonempty (alter (λ q, q ++ [url]) (extract_domain E url)
                     (if bool_decide (extract_domain E url ∉ dom domain_dict)
                      then <[extract_domain E url := []]> domain_dict
                      else domain_dict)).
Proof.
  intros Hq d q. destruct (decide (extract_domain E url = d)) as [<-|Hne].
  - rewrite lookup_alter_eq. intros Hlk.
    destruct (_ !! extract_domain E url) as [q0|]; [|done].
    injection Hlk as <-. by destruct q0.
  - rewrite lookup_alter_ne by done.
    case_bool_decide; [rewrite lookup_insert_ne by done|]; apply Hq.
Qed.

Lemma partition_loop_queues (E : Env) (fuel : nat) (input_urls : list string)
    (domain_dict : gmap string (list string)) (w : World) :
  (length input_urls ≤ fuel)%nat → queues_nonempty domain_dict →
  ∃ dd, partition_loop E fuel input_urls domain_dict w = Ok ([], dd) w
        ∧ queues_nonempty dd
        ∧ ∀ d, default [] (dd !! d)
               = default [] (domain_dict !! d)
                 ++ rev (filter (λ u, extract_domain E u = d) input_urls).
Proof.
  revert input_urls domain_dict.
  induction fuel as [|fuel IH]; intros input_urls domain_dict Hlen Hq.
  - destruct input_urls; [|simpl in Hlen; lia].
    exists domain_dict. split; [done|]. split; [done|].
    intros d. by rewrite app_nil_r.
  - destruct (list_pop input_urls) as [[url rest]|] eqn:Hpop.
    + apply list_pop_Some in Hpop as Hl. subst input_urls.
      rewrite length_app in Hlen. simpl in Hlen.
      simpl. rewrite list_pop_snoc.
      destruct (IH rest _ ltac:(lia) (partition_step_nonempty E domain_dict url Hq))
        as (dd & -> & Hq' & Hlk).
      exists dd. split; [done|]. split; [done|].
      intros d. rewrite Hlk, partition_step_lookup, filter_app, rev_app_distr.
      rewrite <- app_assoc. f_equal. f_equal.
      rewrite filter_cons. by destruct (decide (extract_domain E url = d)).
    + apply list_pop_None in Hpop. subst.
      exists domain_dict. split; [done|]. split; [done|].
      intros d. by rewrite app_nil_r.
Qed.

Lemma url_pipeline_prepare_run (E : Env) (input_urls : list string) (w : World) :
  ∃ dd counter,
    url_pipeline_prepare E input_urls w = Ok (dd, counter) w
    ∧ (∀ d, dd !! d = match rev (filter (λ u, extract_domain E u = d) input_urls) with
                      | [] => None
                      | url :: queue => Some (url :: queue)
                      end)
    ∧ queues_nonempty dd
    ∧ (dd = ∅ ↔ input_urls = []).
Proof.
  destruct (partition_loop_queues E (length input_urls) input_urls ∅ w)
    as (dd & Hrun & Hq & Hlk); [lia|by intros d q; rewrite lookup_empty|].
  assert (Hchar : ∀ d, dd !! d
            = match rev (filter (λ u, extract_domain E u = d) input_urls) with
              | [] => None
              | url :: queue => Some (url :: queue)
              end).
  { intros d. specialize (Hlk d). rewrite lookup_empty in Hlk. simpl in Hlk.
    rewrite <- Hlk. destruct (dd !! d) as [q|] eqn:Hd; simpl; [|done].
    specialize (Hq d q Hd). by destruct q. }
  eexists dd, _. unfold url_pipeline_prepare, bind. rewrite Hrun.
  split; [reflexivity|]. split; [exact Hchar|]. split; [exact Hq|].
  split.
  - intros ->. destruct input_urls as [|u l]; [done|].
    specialize (Hchar (extract_domain E u)). rewrite lookup_empty in Hchar.
    rewrite filter_cons_True in Hchar by done. simpl in Hchar.
    by destruct (rev _ ++ [u]) eqn:Hr; [apply app_eq_nil in Hr as [_ ?]|].
  - intros ->. apply map_eq. intros d. by rewrite Hchar, lookup_empty.
Qed.

(** X4: [url_processing_pipeline] builds a queue mapping in which every
    domain that occurs among the input URLs has as its queue the URLs of
    that domain in reverse input order (so that popping returns them in
    input order), and no other domain has an entry; no queue is empty, and
    the mapping is empty exactly when there is no input URL. *)
Theorem url_pipeline_prepare_queues (E : Env) (input_urls : list string) (w : World) :
  ∃ dd counter,
    url_pipeline_prepare E input_urls w = Ok (dd, counter) w
    ∧ (∀ d, dd !! d = match rev (filter (λ u, extract_domain E u = d) input_urls) with
                      | [] => None
                      | url :: queue => Some (url :: queue)
                      end)
    ∧ queues_nonempty dd
    ∧ (dd = ∅ ↔ input_urls = []).
Proof. apply url_pipeline_prepare_run. Qed.


(** ** What the sequential executor reports *)

Lemma queued_perm (l l' : list (string * list string)) :
  l ≡ₚ l' → concat l.*2 ≡ₚ concat l'.*2.
Proof.
  induction 1 as [|x l l' _ IH|x y l|l l' l'' _ IH1 _ IH2].
  - done.
  - rewrite !fmap_cons. simpl. by rewrite IH.
  - rewrite !fmap_cons. simpl. rewrite !app_assoc.
    by rewrite (Permutation_app_comm y.2 x.2).
  - by etrans.
Qed.

Lemma queued_empty : queued ∅ = [].
Proof. unfold queued. by rewrite map_to_list_empty. Qed.

Lemma queued_after (domain_dict : gmap string (list string)) (domain url : string)
    (queue rest : list string) :
  domain_dict !! domain = Some queue →
  list_pop queue = Some (url, rest) →
  queued domain_dict ≡ₚ url :: queued (queue_after domain_dict domain rest).
Proof.
  intros Hq Hpop. apply list_pop_Some in Hpop. subst queue. unfold queued.
  rewrite <- (queued_perm _ _ (map_to_list_delete domain_dict domain _ Hq)).
  rewrite fmap_cons. simpl.
  destruct rest as [|r rest]; simpl; [done|].
  rewrite <- (insert_delete_eq domain_dict).
  rewrite (queued_perm _ _ (map_to_list_insert (delete domain domain_dict) domain
                              (r :: rest) (lookup_delete_eq _ _))).
  rewrite fmap_cons. simpl.
  rewrite <- app_assoc. simpl. rewrite <- Permutation_middle.
  apply perm_swap.
Qed.

Lemma process_result_counter (E : Env) (html : string) (args : Args) (url : string)
    (counter c : option Z) (w w' : World) :
  process_result E html args url counter w = Ok c w' → c = counter_plus counter 1.
Proof.
  unfold process_result, bind.
  destruct (if truthy (backup_dir args) then _ else _) as [slug w1|e w1|]; [|done..].
  destruct (examine E (Some html) args (Some url) w1) as [r w2|e w2|]; [|done..].
  destruct (write_result E r args None None slug w2) as [[] w3|e w3|]; [|done..].
  intros [= <- _]. by destruct counter.
Qed.

Lemma counter_plus_S (counter : option Z) (n : nat) :
  counter_plus (counter_plus counter 1) n = counter_plus counter (S n).
Proof. destruct counter; simpl; [f_equal; lia|done]. Qed.

(** Whenever the loop of the sequential executor ends normally, it has
    added to [errors] the queued URLs whose download yields nothing. *)
Lemma single_loop_errors (E : Env) (fuel : nat) (dd : gmap string (list string))
    (bd : gmap string Z) (args : Args) (sleeptime : Z) (counter c' : option Z) (i : Z)
    (errors errors' : list string) (w w' : World) :
  single_loop E fuel dd bd args sleeptime counter i errors w = Ok (errors', c') w' →
  ∃ es, errors' = errors ++ es
        ∧ es ≡ₚ filter (λ u, fetch_url E u = None) (queued dd)
        ∧ c' = counter_plus counter
                 (length (filter (λ u, fetch_url E u ≠ None) (queued dd))).
Proof.
  revert dd bd counter i errors w.
  induction fuel as [|fuel IH]; intros dd bd counter i errors w; simpl.
  - case_bool_decide as Hdd; [|done]. subst dd. intros [= <- <- _].
    exists []. rewrite app_nil_r, queued_empty. split; [done|]. split; [done|].
    by destruct counter; simpl; [rewrite Z.add_0_r|].
  - case_bool_decide as Hdd.
    { subst dd. intros [= <- <- _].
      exists []. rewrite app_nil_r, queued_empty. split; [done|]. split; [done|].
      by destruct counter; simpl; [rewrite Z.add_0_r|]. }
    unfold bind.
    destruct (draw_backoff_url E dd bd sleeptime i w)
      as [[[[url dd1] bd1] i1] w1|e w1|] eqn:Hdraw; [|done..].
    apply draw_backoff_url_inv in Hdraw
      as (domain & queue & rest & _ & Hq & Hpop & -> & _ & _).
    pose proof (queued_after dd domain url queue rest Hq Hpop) as Hperm.
    unfold fetch, bind, emit, elapse, ret.
    destruct (fetch_url E url) as [html|] eqn:Hfetch.
    + destruct (process_result E html args url counter _) as [c1 w3|e w3|] eqn:Hproc;
        [|done..].
      apply process_result_counter in Hproc. subst c1.
      intros Hrest. apply IH in Hrest as (es & -> & Hes & ->).
      exists es. split; [done|]. rewrite Hperm.
      rewrite filter_cons_False by congruence.
      rewrite filter_cons_True by congruence.
      split; [done|]. apply counter_plus_S.
    + unfold LOGGER, emit.
      intros Hrest. apply IH in Hrest as (es & -> & Hes & ->).
      exists (url :: es). rewrite <- app_assoc. split; [done|]. rewrite Hperm.
      rewrite filter_cons_True by done.
      rewrite filter_cons_False by (intros H; by apply H).
      split; [by rewrite Hes|done].
Qed.

Lemma examine_returns (E : Env) (htmlstring : option string) (args : Args)
    (url : option string) (w : World) :
  ∃ r w', examine E htmlstring args url w = Ok r w' ∧ files w' = files w.
Proof.
  unfold examine. destruct htmlstring as [html|]; [|by eexists _, _].
  destruct (Py.slen html >? MAX_FILE_SIZE E); [by eexists _, _|].
  destruct (Py.slen html <? MIN_FILE_SIZE E); [by eexists _, _|].
  unfold bind, when, emit, stderr_write, emit, ret.
  destruct (timeout args); destruct (extract E html url args); by eexists _, _.
Qed.

Lemma write_result_stdout (E : Env) (result : option string) (args : Args)
    (orig_filename : option string) (counter : option Z) (new_filename : option string)
    (w : World) :
  outputdir args = None →
  ∃ w', write_result E result args orig_filename counter new_filename w = Ok tt w'
        ∧ files w' = files w.
Proof.
  intros Hout. unfold write_result. rewrite Hout.
  destruct result; by eexists.
Qed.

Lemma process_result_stdout (E : Env) (html : string) (args : Args) (url : string)
    (counter : option Z) (w : World) :
  outputdir args = None → truthy (backup_dir args) = false →
  ∃ w', process_result E html args url counter w = Ok (counter_plus counter 1) w'.
Proof.
  intros Hout Hbackup. unfold process_result, bind. rewrite Hbackup.
  unfold ret at 1.
  destruct (examine_returns E (Some html) args (Some url) w) as (r & w1 & -> & _).
  destruct (write_result_stdout E r args None None None w1 Hout) as (w2 & -> & _).
  exists w2. by destruct counter.
Qed.

Lemma queues_nonempty_after (domain_dict : gmap string (list string)) (domain : string)
    (rest : list string) :
  queues_nonempty domain_dict → queues_nonempty (queue_after domain_dict domain rest).
Proof.
  intros Hq d q. destruct rest as [|r rest]; simpl.
  - intros Hlk. apply lookup_delete_Some in Hlk as [_ Hlk]. by eapply Hq.
  - intros Hlk. apply lookup_insert_Some in Hlk as [[_ <-]|[_ Hlk]]; [done|by eapply Hq].
Qed.

Lemma pending_nonempty (domain_dict : gmap string (list string)) :
  domain_dict ≠ ∅ → queues_nonempty domain_dict → (0 < pending domain_dict)%nat.
Proof.
  intros Hne Hq.
  destruct (map_choose domain_dict Hne) as (d & q & Hd).
  rewrite (pending_delete _ _ _ Hd). specialize (Hq d q Hd).
  destruct q; [done|simpl; lia].
Qed.

(** With results printed on standard output and no backup, the loop of the
    sequential executor ends normally on well-formed queues. *)
Lemma single_loop_stdout (E : Env) (fuel : nat) (dd : gmap string (list string))
    (bd : gmap string Z) (args : Args) (sleeptime : Z) (counter : option Z) (i : Z)
    (errors : list string) (w : World) :
  (pending dd < fuel)%nat → queues_nonempty dd → 0 ≤ sleeptime →
  outputdir args = None → truthy (backup_dir args) = false →
  ∃ result w', single_loop E fuel dd bd args sleeptime counter i errors w = Ok result w'.
Proof.
  intros Hfuel Hq Hs Hout Hbackup. revert dd bd counter i errors w Hfuel Hq.
  induction fuel as [|fuel IH]; intros dd bd counter i errors w Hfuel Hq; [lia|].
  simpl. case_bool_decide as Hdd; [by eexists _, _|]. unfold bind.
  destruct (draw_backoff_url_total E dd bd sleeptime i w Hdd Hq Hs)
    as (domain & url & rest & Hch & Hlk & Hrun).
  simpl in Hrun. rewrite Hrun.
  pose proof (pending_queue_after dd domain url _ rest Hlk (list_pop_snoc rest url))
    as Hpend.
  pose proof (queues_nonempty_after dd domain rest Hq) as Hq1.
  unfold fetch, bind, emit, elapse, ret.
  destruct (fetch_url E url) as [html|].
  - edestruct (process_result_stdout E html args url counter) as (w3 & ->); [done..|].
    apply IH; [lia|done].
  - unfold LOGGER, emit. apply IH; [lia|done].
Qed.

(** X5: on queues none of which is empty and with a non-negative
    [sleeptime], whenever [single_threaded_processing] returns, its error
    list holds exactly the queued URLs whose download yields nothing, each
    as often as it is queued, and a counter has been advanced by the number
    of the other queued URLs; and it does return when results go to
    standard output and no backup is kept. *)
Theorem single_threaded_processing_errors (E : Env) (dd : gmap string (list string))
    (bd : gmap string Z) (args : Args) (sleeptime : Z) (counter : option Z) (w : World) :
  queues_nonempty dd → 0 ≤ sleeptime →
  (∀ errors c' w',
     single_threaded_processing E dd bd args sleeptime counter w = Ok (errors, c') w' →
     errors ≡ₚ filter (λ u, fetch_url E u = None) (queued dd)
     ∧ c' = counter_plus counter
              (length (filter (λ u, fetch_url E u ≠ None) (queued dd))))
  ∧ (outputdir args = None → truthy (backup_dir args) = false →
     ∃ errors c' w',
       single_threaded_processing E dd bd args sleeptime counter w = Ok (errors, c') w').
Proof.
  intros Hq Hs. unfold single_threaded_processing. split.
  - intros errors c' w' Hrun.
    apply single_loop_errors in Hrun as (es & -> & Hes & ->). done.
  - intros Hout Hbackup.
    destruct (single_loop_stdout E (S (pending dd)) dd bd args sleeptime counter 3 [] w)
      as ([errors c'] & w' & Hrun); [lia|done..|].
    by exists errors, c', w'.
Qed.

Lemma single_threaded_processing_errors_witness :
  ∃ errors c' w',
    single_threaded_processing (stub_env 200 []) (one_domain ["u1"; "u2"]) ∅ stdout_args
      10 (Some 0) empty_world = Ok (errors, c') w'.
Proof.
  refine (proj2 (single_threaded_processing_errors (stub_env 200 [])
                   (one_domain ["u1"; "u2"]) ∅ stdout_args 10 (Some 0) empty_world _ _)
            _ _).
  - by apply one_domain_queues.
  - lia.
  - reflexivity.
  - reflexivity.
Defined.

(** ** What the concurrent executor reports *)

Lemma counter_plus_plus (counter : option Z) (a b : nat) :
  counter_plus (counter_plus counter a) b = counter_plus counter (a + b).
Proof. destruct counter; simpl; [f_equal; lia|done]. Qed.

Lemma counter_plus_0 (counter : option Z) : counter_plus counter 0 = counter.
Proof. destruct counter; simpl; [f_equal; lia|done]. Qed.

Lemma handle_results_run (E : Env) (completed : list string) (args : Args)
    (counter c' : option Z) (errors errors' : list string) (w w' : World) :
  handle_results E completed args counter errors w = Ok (errors', c') w' →
  errors' = errors ++ filter (λ u, fetch_url E u = None) completed
  ∧ c' = counter_plus counter (length (filter (λ u, fetch_url E u ≠ None) completed)).
Proof.
  revert counter errors w.
  induction completed as [|url rest IH]; intros counter errors w; simpl.
  - intros [= <- <- _]. by rewrite app_nil_r, counter_plus_0.
  - destruct (fetch_url E url) as [html|] eqn:Hfetch.
    + unfold bind.
      destruct (process_result E html args url counter w) as [c1 w1|e w1|] eqn:Hproc;
        [|done..].
      apply process_result_counter in Hproc. subst c1.
      intros Hrest. apply IH in Hrest as [-> ->].
      rewrite filter_cons_False by congruence.
      rewrite filter_cons_True by congruence.
      by rewrite counter_plus_S.
    + unfold bind, LOGGER, emit.
      intros Hrest. apply IH in Hrest as [-> ->].
      rewrite filter_cons_True by done.
      rewrite filter_cons_False by (intros H; by apply H).
      by rewrite <- app_assoc.
Qed.

Lemma populate_buffer_run (E : Env) (n : nat) (bufferlist bufferlist1 : list string)
    (dd dd1 : gmap string (list string)) (bd bd1 : gmap string Z) (sleeptime i i1 : Z)
    (w w1 : World) :
  populate_buffer E n bufferlist dd bd sleeptime i w = Ok (bufferlist1, dd1, bd1, i1) w1 →
  ∃ drawn, bufferlist1 = bufferlist ++ drawn
           ∧ length drawn = n
           ∧ queued dd ≡ₚ drawn ++ queued dd1.
Proof.
  revert bufferlist dd bd i w.
  induction n as [|n IH]; intros bufferlist dd bd i w; simpl.
  - intros [= <- <- _ _ _]. exists []. by rewrite app_nil_r.
  - unfold bind.
    destruct (draw_backoff_url E dd bd sleeptime i w)
      as [[[[url dd2] bd2] i2] w2|e w2|] eqn:Hdraw; [|done..].
    apply draw_backoff_url_inv in Hdraw
      as (domain & queue & rest & _ & Hq & Hpop & -> & _ & _).
    intros Hrest. apply IH in Hrest as (drawn & -> & Hlen & Hperm).
    exists (url :: drawn). rewrite <- app_assoc. split; [done|].
    split; [simpl; by f_equal|].
    rewrite (queued_after dd domain url queue rest Hq Hpop). simpl. by rewrite Hperm.
Qed.

(** Whenever the loop of the concurrent executor ends normally, what it
    returns as errors lies within [errors] and the queued URLs whose
    download yields nothing, and the counter has counted every other queued
    URL. *)
Lemma multi_loop_errors (E : Env) (fuel : nat) (dd : gmap string (list string))
    (bd : gmap string Z) (args : Args) (sleeptime : Z) (counter c' : option Z) (i : Z)
    (errors errors' : list string) (download_threads : Z) (w w' : World) :
  (∀ l, as_completed E l ≡ₚ l) →
  multi_loop E fuel dd bd args sleeptime counter i errors download_threads w
    = Ok (errors', c') w' →
  errors' ⊆+ errors ++ filter (λ u, fetch_url E u = None) (queued dd)
  ∧ c' = counter_plus counter
           (length (filter (λ u, fetch_url E u ≠ None) (queued dd))).
Proof.
  intros Hcompleted. revert dd bd counter i errors w.
  induction fuel as [|fuel IH]; intros dd bd counter i errors w; simpl.
  - case_bool_decide as Hdd; [|done]. subst dd. intros [= <- <- _].
    rewrite queued_empty, app_nil_r, counter_plus_0. done.
  - case_bool_decide as Hdd.
    { subst dd. intros [= <- <- _].
      rewrite queued_empty, app_nil_r, counter_plus_0. done. }
    destruct (Z.of_nat (size (distinct_urls dd)) <? download_threads).
    { unfold single_threaded_processing. intros Hrun.
      apply single_loop_errors in Hrun as (es & -> & Hes & ->).
      split; [|done]. simpl. rewrite Hes. by apply submseteq_inserts_l. }
    unfold bind.
    destruct (populate_buffer E (Z.to_nat download_threads) [] dd bd sleeptime i w)
      as [[[[buf dd1] bd1] i1] w1|e w1|] eqn:Hpop; [|done..].
    apply populate_buffer_run in Hpop as (drawn & -> & _ & Hperm). simpl.
    unfold thread_pool_fetch.
    destruct (download_threads <? 1); [done|].
    unfold bind, emit, elapse, ret.
    destruct (handle_results E (as_completed E drawn) args counter errors _)
      as [[errors1 counter1] w2|e w2|] eqn:Hres; [|done..].
    apply handle_results_run in Hres as [-> ->].
    intros Hrest. apply IH in Hrest as [Hsub ->].
    rewrite Hperm, !filter_app, length_app, counter_plus_plus.
    rewrite !(Hcompleted drawn) in *.
    split; [|done]. by rewrite <- app_assoc in Hsub.
Qed.

(** X6: with futures that all complete, whenever
    [multi_threaded_processing] returns, every URL it reports as an error
    was queued and its download yielded nothing, no URL being reported more
    often than it was queued; and a counter has been advanced by the number
    of queued URLs whose download yielded something, whether or not the
    fallback to the sequential executor was taken. *)
Theorem multi_threaded_processing_errors (E : Env) (dd : gmap string (list string))
    (args : Args) (sleeptime : Z) (counter c' : option Z) (errors : list string)
    (w w' : World) :
  (∀ l, as_completed E l ≡ₚ l) →
  multi_threaded_processing E dd args sleeptime counter w = Ok (errors, c') w' →
  errors ⊆+ filter (λ u, fetch_url E u = None) (queued dd)
  ∧ (∀ u, u ∈ errors → u ∈ queued dd ∧ fetch_url E u = None)
  ∧ c' = counter_plus counter
           (length (filter (λ u, fetch_url E u ≠ None) (queued dd))).
Proof.
  intros Hcompleted Hrun. unfold multi_threaded_processing in Hrun.
  apply multi_loop_errors in Hrun as [Hsub ->]; [|done]. simpl in Hsub.
  split; [done|]. split; [|done].
  intros u Hu. eapply elem_of_submseteq in Hu; [|exact Hsub].
  apply list_elem_of_filter in Hu. tauto.
Qed.

Lemma multi_threaded_processing_errors_witness :
  ∃ errors c' w',
    multi_threaded_processing (stub_env 200 []) six_domains stub_args 10 None empty_world
      = Ok (errors, c') w'
    ∧ errors ⊆+ filter (λ u, fetch_url (stub_env 200 []) u = None) (queued six_domains)
    ∧ (∀ u, u ∈ errors →
         u ∈ queued six_domains ∧ fetch_url (stub_env 200 []) u = None)
    ∧ c' = counter_plus None
             (length (filter (λ u, fetch_url (stub_env 200 []) u ≠ None)
                        (queued six_domains))).
Proof.
  assert (Hrun : ∃ errors c' w',
            multi_threaded_processing (stub_env 200 []) six_domains stub_args 10 None
              empty_world = Ok (errors, c') w').
  { eexists _, _, _. vm_compute. reflexivity. }
  destruct Hrun as (errors & c' & w' & Hrun). exists errors, c', w'.
  split; [exact Hrun|].
  apply (multi_threaded_processing_errors (stub_env 200 []) six_domains stub_args 10
           None c' errors empty_world w'); [|exact Hrun].
  intros l. reflexivity.
Defined.


(** ** The batches of the file pipeline, in general *)

Lemma dispatched_add_event (e : event) (w : World) :
  dispatched (add_event e w) = dispatched w ++ batch_of e.
Proof.
  unfold dispatched, add_event. simpl.
  rewrite flat_map_app. simpl. by rewrite app_nil_r.
Qed.

Lemma examine_frame (E : Env) (htmlstring : option string) (args : Args)
    (url : option string) (w : World) :
  ∃ r w', examine E htmlstring args url w = Ok r w'
          ∧ files w' = files w ∧ dispatched w' = dispatched w.
Proof.
  unfold examine. destruct htmlstring as [html|].
  2: { eexists _, _. split; [reflexivity|]. split; [done|].
       by rewrite dispatched_add_event, app_nil_r. }
  destruct (Py.slen html >? MAX_FILE_SIZE E).
  { eexists _, _. split; [reflexivity|]. split; [done|].
    by rewrite dispatched_add_event, app_nil_r. }
  destruct (Py.slen html <? MIN_FILE_SIZE E).
  { eexists _, _. split; [reflexivity|]. split; [done|].
    by rewrite dispatched_add_event, app_nil_r. }
  unfold bind, when, emit, stderr_write, emit, ret.
  destruct (timeout args); destruct (extract E html url args);
    (eexists _, _; split; [reflexivity|]; split; [done|];
     rewrite ?dispatched_add_event; simpl; by rewrite ?app_nil_r).
Qed.

Lemma file_processing_stdout (E : Env) (filename : string) (args : Args)
    (counter : option Z) (w : World) :
  outputdir args = None → is_Some (files w !! filename) →
  ∃ w', file_processing E filename args counter w = Ok tt w'
        ∧ files w' = files w ∧ dispatched w' = dispatched w.
Proof.
  intros Hout [content Hfile]. unfold file_processing, bind, file_read.
  rewrite Hfile.
  destruct (examine_frame E (Some content) args (URL args) w)
    as (r & w1 & -> & Hf1 & Hd1).
  unfold write_result. rewrite Hout. destruct r as [result|].
  - eexists. split; [reflexivity|]. split; [done|].
    by rewrite dispatched_add_event, app_nil_r.
  - by exists w1.
Qed.

Lemma for_each_file_processing (E : Env) (batch : list string) (args : Args)
    (counter : option Z) (w : World) :
  outputdir args = None → (∀ f, f ∈ batch → is_Some (files w !! f)) →
  ∃ w', for_each batch (λ filename, file_processing E filename args counter) w = Ok tt w'
        ∧ files w' = files w ∧ dispatched w' = dispatched w.
Proof.
  intros Hout. revert w. induction batch as [|f batch IH]; intros w Hfiles; simpl.
  - by exists w.
  - unfold bind.
    destruct (file_processing_stdout E f args counter w Hout)
      as (w1 & -> & Hf1 & Hd1); [apply Hfiles, elem_of_cons; auto|].
    destruct (IH w1) as (w2 & -> & Hf2 & Hd2).
    { intros g Hg. rewrite Hf1. apply Hfiles, elem_of_cons. auto. }
    exists w2. split; [done|]. split; congruence.
Qed.

Lemma pool_map_stdout (E : Env) (processes : Z) (args : Args) (counter : option Z)
    (batch : list string) (w : World) :
  1 ≤ processes → outputdir args = None →
  (∀ f, f ∈ batch → is_Some (files w !! f)) →
  ∃ w', pool_map E processes args counter batch w = Ok tt w'
        ∧ files w' = files w ∧ dispatched w' = dispatched w ++ [(counter, batch)].
Proof.
  intros Hp Hout Hfiles. unfold pool_map.
  destruct (Z.ltb_spec processes 1) as [?|_]; [lia|].
  unfold bind, emit.
  destruct (for_each_file_processing E batch args counter
              (add_event (PoolMap processes counter batch) w) Hout Hfiles)
    as (w' & -> & Hf & Hd).
  exists w'. split; [done|]. split; [done|].
  by rewrite Hd, dispatched_add_event.
Qed.

Lemma full_batches_length (size' : Z) (rounds : list (option Z * list string)) :
  Forall (λ r, Z.of_nat (length r.2) = size') rounds →
  Z.of_nat (length (concat rounds.*2)) = Z.of_nat (length rounds) * size'.
Proof.
  induction 1 as [|r rounds Hr _ IH]; [simpl; lia|].
  rewrite fmap_cons. simpl. rewrite length_app. lia.
Qed.

Lemma batch_loop_stdout (E : Env) (processes : Z) (args : Args)
    (filelist filebatch : list string) (filecounter : option Z) (w : World) :
  1 ≤ processes → outputdir args = None →
  Z.of_nat (length filebatch) ≤ MAX_FILES_PER_DIRECTORY E →
  (∀ f, f ∈ filebatch ++ filelist → is_Some (files w !! f)) →
  ∃ rounds filebatch' filecounter' w',
    batch_loop E processes args filelist filebatch filecounter w
      = Ok (filebatch', filecounter') w'
    ∧ files w' = files w
    ∧ dispatched w' = dispatched w ++ rounds
    ∧ concat rounds.*2 ++ filebatch' = filebatch ++ filelist
    ∧ Forall (λ r, Z.of_nat (length r.2) = MAX_FILES_PER_DIRECTORY E + 1) rounds
    ∧ Z.of_nat (length filebatch') ≤ MAX_FILES_PER_DIRECTORY E
    ∧ (∀ k r, rounds !! k = Some r →
         r.1 = Some (default 0 filecounter
                     + Z.of_nat k * (MAX_FILES_PER_DIRECTORY E + 1)))
    ∧ filecounter' = match rounds with
                     | [] => filecounter
                     | _ :: _ => Some (default 0 filecounter
                                       + Z.of_nat (length rounds)
                                         * (MAX_FILES_PER_DIRECTORY E + 1))
                     end.
Proof.
  intros Hp Hout. revert filebatch filecounter w.
  induction filelist as [|f rest IH]; intros filebatch filecounter w Hlen Hfiles.
  - exists [], filebatch, filecounter, w. simpl.
    rewrite !app_nil_r. repeat split; done.
  - cbn [batch_loop]. unfold Py.len.
    destruct (Z.gtb_spec (Z.of_nat (length (filebatch ++ [f])))
                (MAX_FILES_PER_DIRECTORY E)) as [Hfull|Hroom].
    + rewrite length_app in Hfull. simpl in Hfull.
      assert (Hsize : Z.of_nat (length (filebatch ++ [f]))
                      = MAX_FILES_PER_DIRECTORY E + 1).
      { rewrite length_app. simpl. lia. }
      set (c0 := match filecounter with None => 0 | Some c => c end).
      assert (Hc0 : default 0 filecounter = c0) by (by destruct filecounter).
      unfold bind.
      destruct (pool_map_stdout E processes args (Some c0) (filebatch ++ [f]) w Hp Hout)
        as (w1 & -> & Hf1 & Hd1).
      { intros g Hg. apply Hfiles. rewrite elem_of_app, elem_of_cons.
        apply elem_of_app in Hg as [?|Hg]; [auto|].
        apply elem_of_cons in Hg as [?|Hg]; [auto|]. by apply elem_of_nil in Hg. }
      destruct (IH [] (Some (c0 + Z.of_nat (length (filebatch ++ [f]))) ) w1)
        as (rounds & fb' & fc' & w' & -> & Hf & Hd & Hcat & Hall & Hlast & Hk & Hfc).
      { simpl. lia. }
      { intros g Hg. rewrite Hf1. apply Hfiles. simpl in Hg.
        rewrite elem_of_app, elem_of_cons. auto. }
      exists ((Some c0, filebatch ++ [f]) :: rounds), fb', fc', w'.
      split; [done|]. split; [congruence|].
      split; [by rewrite Hd, Hd1, <- app_assoc|].
      split; [rewrite fmap_cons; simpl; rewrite <- !app_assoc; simpl in *; by rewrite Hcat|].
      split; [by constructor|]. split; [done|].
      split.
      * intros k r. destruct k as [|k]; simpl.
        -- intros [= <-]. simpl. rewrite Hc0. f_equal. lia.
        -- intros Hr. rewrite (Hk k r Hr), Hc0. simpl. f_equal. lia.
      * rewrite Hfc, Hc0. simpl.
        destruct rounds; simpl; f_equal; lia.
    + destruct (IH (filebatch ++ [f]) filecounter w)
        as (rounds & fb' & fc' & w' & -> & Hf & Hd & Hcat & Hall & Hlast & Hk & Hfc).
      { lia. }
      { intros g Hg. apply Hfiles. by rewrite <- app_assoc in Hg. }
      exists rounds, fb', fc', w'.
      split; [done|]. split; [done|]. split; [done|].
      split; [by rewrite Hcat, <- app_assoc|]. done.
Qed.

(** X7: when results go to standard output, the worker count is at least
    one, the shard size is not negative and every file of the walk can be
    read, [file_processing_pipeline] returns after a number of full rounds
    and one last round.  The rounds together hold the files of the walk, in
    order and each once; every full round has [MAX_FILES_PER_DIRECTORY + 1]
    files and the last at most [MAX_FILES_PER_DIRECTORY]; the full round
    number [k] gets the counter [k * (MAX_FILES_PER_DIRECTORY + 1)]; the
    last round gets no counter when it is the only one, and the total
    number of files otherwise. *)
Theorem file_processing_pipeline_rounds (E : Env) (args : Args) (w : World) :
  outputdir args = None →
  1 ≤ Py.or_default (parallel args) (FILE_PROCESSING_CORES E) →
  0 ≤ MAX_FILES_PER_DIRECTORY E →
  (∀ f, f ∈ generate_filelist E (inputdir args) → is_Some (files w !! f)) →
  ∃ rounds last_counter last_batch w',
    file_processing_pipeline E args w = Ok tt w'
    ∧ dispatched w' = dispatched w ++ rounds ++ [(last_counter, last_batch)]
    ∧ concat rounds.*2 ++ last_batch = generate_filelist E (inputdir args)
    ∧ Forall (λ r, Z.of_nat (length r.2) = MAX_FILES_PER_DIRECTORY E + 1) rounds
    ∧ Z.of_nat (length last_batch) ≤ MAX_FILES_PER_DIRECTORY E
    ∧ (∀ k r, rounds !! k = Some r →
         r.1 = Some (Z.of_nat k * (MAX_FILES_PER_DIRECTORY E + 1)))
    ∧ last_counter = match rounds with
                     | [] => None
                     | _ :: _ =>
                         Some (Z.of_nat (length (generate_filelist E (inputdir args))))
                     end.
Proof.
  intros Hout Hp Hmax Hfiles. unfold file_processing_pipeline, bind.
  destruct (batch_loop_stdout E _ args (generate_filelist E (inputdir args)) [] None w
              Hp Hout)
    as (rounds & fb & fc & w1 & -> & Hf & Hd & Hcat & Hall & Hlast & Hk & Hfc);
    [simpl; lia|done|].
  simpl in Hcat.
  destruct (pool_map_stdout E _ args
              (match fc with Some c => Some (c + Py.len fb) | None => None end)
              fb w1 Hp Hout) as (w' & -> & Hf' & Hd').
  { intros g Hg. rewrite Hf. apply Hfiles. rewrite <- Hcat. apply elem_of_app. auto. }
  eexists rounds, _, fb, w'. split; [reflexivity|].
  split; [by rewrite Hd', Hd, <- app_assoc|]. split; [done|].
  split; [done|]. split; [done|]. split.
  - intros k r Hr. rewrite (Hk k r Hr). by simpl.
  - subst fc. destruct rounds as [|r0 rounds]; [done|].
    f_equal. rewrite <- Hcat, length_app, Nat2Z.inj_add.
    rewrite (full_batches_length _ _ Hall). unfold Py.len. simpl default. lia.
Qed.

Lemma file_processing_pipeline_rounds_witness :
  ∃ rounds last_counter last_batch w',
    file_processing_pipeline (stub_env 2 (numbered 5)) stdout_args
      (world_with (numbered 5) "0123456789") = Ok tt w'
    ∧ dispatched w' = dispatched (world_with (numbered 5) "0123456789")
                      ++ rounds ++ [(last_counter, last_batch)]
    ∧ concat rounds.*2 ++ last_batch
      = generate_filelist (stub_env 2 (numbered 5)) (inputdir stdout_args)
    ∧ Forall (λ r, Z.of_nat (length r.2)
                   = MAX_FILES_PER_DIRECTORY (stub_env 2 (numbered 5)) + 1) rounds
    ∧ Z.of_nat (length last_batch) ≤ MAX_FILES_PER_DIRECTORY (stub_env 2 (numbered 5))
    ∧ (∀ k r, rounds !! k = Some r →
         r.1 = Some (Z.of_nat k * (MAX_FILES_PER_DIRECTORY (stub_env 2 (numbered 5)) + 1)))
    ∧ last_counter
      = match rounds with
        | [] => None
        | _ :: _ =>
            Some (Z.of_nat (length (generate_filelist (stub_env 2 (numbered 5))
                                      (inputdir stdout_args))))
        end.
Proof.
  apply (file_processing_pipeline_rounds (stub_env 2 (numbered 5)) stdout_args
           (world_with (numbered 5) "0123456789")).
  - reflexivity.
  - vm_compute. discriminate.
  - vm_compute. discriminate.
  - apply Forall_forall. apply (bool_decide_unpack _). vm_compute. exact I.
Defined.


(** ** Output directories and generated file names *)

Lemma check_outputdir_status_run (E : Env) (directory : string) (w : World) :
  ∃ ok w',
    check_outputdir_status E directory w = Ok ok w'
    ∧ files w' = files w
    ∧ (ok = true ↔ (directory ∈ dirs w'))
    ∧ (dirs w ⊆ dirs w') ∧ (dirs w' ⊆ {[ directory ]} ∪ dirs w)
    ∧ (directory ∈ dirs w → w' = w)
    ∧ (ok = false →
       dirs w' = dirs w
       ∧ trace w' = trace w ++ [Stderr ("ERROR: Destination directory cannot be created: "
                                        +:+ directory +:+ nl)]
       ∧ (makedirs_denied E directory = true ∨ directory ∈ dom (files w)))
    ∧ (ok = true → trace w' = trace w).
Proof.
  unfold check_outputdir_status, bind, path_exists, path_isdir, makedirs.
  destruct (decide (directory ∈ dirs w)) as [Hdir|Hdir].
  - rewrite (bool_decide_eq_true_2 _ Hdir). simpl.
    exists true, w. repeat split; try done; set_solver.
  - rewrite (bool_decide_eq_false_2 _ Hdir). rewrite orb_true_r.
    destruct (makedirs_denied E directory || bool_decide (directory ∈ dom (files w)))
      eqn:Hdenied.
    + eexists false, _. split; [reflexivity|]. simpl.
      repeat split; try done; try set_solver.
      apply orb_true_iff in Hdenied as [?|Hfile]; [auto|].
      right. by apply bool_decide_eq_true in Hfile.
    + eexists true, _. split; [reflexivity|]. simpl.
      repeat split; try done; set_solver.
Qed.


Lemma charclass_choice (E : Env) (w : World) :
  ∃ c, random_choice E charclass w = Ok c (next_rng w) ∧ c ∈ charclass.
Proof.
  unfold random_choice.
  destruct (lookup_lt_is_Some_2 charclass
              (random_source E (rng_pos w) mod length charclass)%nat) as [c Hc].
  { apply Nat.mod_upper_bound. vm_compute. discriminate. }
  exists c. rewrite Hc. split; [done|]. by eapply list_elem_of_lookup_2.
Qed.

Lemma random_name_run (E : Env) (n : nat) (w : World) :
  ∃ name w', random_name E n w = Ok name w'
             ∧ String.length name = n
             ∧ Forall (λ c, c ∈ charclass) (chars name)
             ∧ same_but_rng w w'.
Proof.
  revert w. induction n as [|n IH]; intros w; simpl.
  - exists "", w. split; [done|]. split; [done|]. split; [constructor|]. by repeat split.
  - unfold bind. destruct (charclass_choice E w) as (c & -> & Hc).
    destruct (IH (next_rng w)) as (name & w' & -> & Hlen & Hall & Hsame).
    exists (String c name), w'. split; [done|]. split; [simpl; by f_equal|].
    split; [by constructor|]. exact Hsame.
Qed.

Lemma get_writable_loop_run (E : Env) (fuel : nat)
    (destdir extension filename output_path : string) (w : World) :
  output_path = Py.path_join destdir (filename +:+ extension) →
  String.length filename = Z.to_nat (FILENAME_LEN E) →
  Forall (λ c, c ∈ charclass) (chars filename) →
  match get_writable_loop E fuel destdir extension filename output_path w with
  | Ok (p, name) w' =>
      p = Py.path_join destdir (name +:+ extension)
      ∧ String.length name = Z.to_nat (FILENAME_LEN E)
      ∧ Forall (λ c, c ∈ charclass) (chars name)
      ∧ unused p w' ∧ same_but_rng w w'
  | Raised _ _ => False
  | OutOfFuel => True
  end
  ∧ (unused output_path w →
     get_writable_loop E fuel destdir extension filename output_path w
     = Ok (output_path, filename) w).
Proof.
  revert filename output_path w.
  induction fuel as [|fuel IH]; intros filename output_path w Hpath Hlen Hall.
  - simpl. unfold bind, path_exists.
    destruct (decide (output_path ∈ dirs w)) as [Hd|Hd].
    { rewrite (bool_decide_eq_true_2 _ Hd). simpl. split; [done|]. by intros [? _]. }
    rewrite (bool_decide_eq_false_2 _ Hd). simpl.
    destruct (decide (output_path ∈ dom (files w))) as [Hf|Hf].
    { rewrite (bool_decide_eq_true_2 _ Hf). split; [done|]. by intros [_ ?]. }
    rewrite (bool_decide_eq_false_2 _ Hf). unfold ret.
    split; [|done]. by repeat split.
  - simpl. unfold bind, path_exists.
    destruct (decide (output_path ∈ dirs w)) as [Hd|Hd];
      [rewrite (bool_decide_eq_true_2 _ Hd); simpl
      |rewrite (bool_decide_eq_false_2 _ Hd); simpl;
       destruct (decide (output_path ∈ dom (files w))) as [Hf|Hf];
       [rewrite (bool_decide_eq_true_2 _ Hf)|rewrite (bool_decide_eq_false_2 _ Hf)]].
    3: { unfold ret. split; [|done]. by repeat split. }
    all: destruct (random_name_run E (Z.to_nat (FILENAME_LEN E)) w)
           as (name & w1 & -> & Hlen1 & Hall1 & Hc & Hf1 & Hd1 & Ht1);
         destruct (IH name (Py.path_join destdir (name +:+ extension)) w1
                     eq_refl Hlen1 Hall1) as [Hrun _];
         (split; [|by intros [? ?]]);
         destruct (get_writable_loop E fuel destdir extension name _ w1)
           as [[p name'] w'|e w'|]; [|done..];
         destruct Hrun as (Hp & Hl & Ha & Hu & Hc' & Hf' & Hd' & Ht');
         (split; [done|]); (split; [done|]); (split; [done|]); (split; [done|]);
         repeat split; congruence.
Qed.

Lemma get_writable_path_run (E : Env) (destdir extension : string) (w : World) :
  match get_writable_path E destdir extension w with
  | Ok (p, name) w' =>
      p = Py.path_join destdir (name +:+ extension)
      ∧ String.length name = Z.to_nat (FILENAME_LEN E)
      ∧ Forall (λ c, c ∈ charclass) (chars name)
      ∧ unused p w' ∧ same_but_rng w w'
  | Raised _ _ => False
  | OutOfFuel => True
  end
  ∧ ((∀ name, unused (Py.path_join destdir (name +:+ extension)) w) →
     ∃ p name w', get_writable_path E destdir extension w = Ok (p, name) w').
Proof.
  unfold get_writable_path, bind.
  destruct (random_name_run E (Z.to_nat (FILENAME_LEN E)) w)
    as (name & w1 & -> & Hlen1 & Hall1 & Hc & Hf1 & Hd1 & Ht1).
  destruct (get_writable_loop_run E (name_attempts E) destdir extension name
              (Py.path_join destdir (name +:+ extension)) w1 eq_refl Hlen1 Hall1)
    as [Hrun Hfree].
  split.
  - destruct (get_writable_loop E _ destdir extension name _ w1)
      as [[p name'] w'|e w'|]; [|done..].
    destruct Hrun as (Hp & Hl & Ha & Hu & Hc' & Hf' & Hd' & Ht').
    (split; [done|]); (split; [done|]); (split; [done|]); (split; [done|]).
    repeat split; congruence.
  - intros Hall. rewrite Hfree; [by eexists _, _, _|].
    destruct (Hall name) as [Hd Hf]. split; congruence.
Qed.

(** X9: [get_writable_path] never raises.  When it returns, the path is
    the destination directory joined with the generated name and the
    extension, the name has [FILENAME_LEN] characters, all of them letters
    or digits, no file or directory has that path, and nothing but the
    state of the random generator has changed.  It returns as soon as a
    generated name is unused, so always when no name is taken. *)
Theorem get_writable_path_fresh (E : Env) (destdir extension : string) (w : World) :
  match get_writable_path E destdir extension w with
  | Ok (p, name) w' =>
      p = Py.path_join destdir (name +:+ extension)
      ∧ String.length name = Z.to_nat (FILENAME_LEN E)
      ∧ Forall (λ c, c ∈ charclass) (chars name)
      ∧ unused p w' ∧ same_but_rng w w'
  | Raised _ _ => False
  | OutOfFuel => True
  end
  ∧ ((∀ name, unused (Py.path_join destdir (name +:+ extension)) w) →
     ∃ p name w', get_writable_path E destdir extension w = Ok (p, name) w').
Proof. apply get_writable_path_run. Qed.

Lemma determine_counter_dir_pure (E : Env) (dirname : string) (counter : option Z)
    (w : World) :
  (∃ p, determine_counter_dir E dirname counter w = Ok p w)
  ∨ ∃ e, determine_counter_dir E dirname counter w = Raised e w.
Proof.
  unfold determine_counter_dir. destruct counter as [c|]; [|left; by eexists].
  destruct (MAX_FILES_PER_DIRECTORY E =? 0); [right|left]; by eexists.
Qed.

(** Writing [content] to a path from [get_writable_path], after the check
    of the directory: the files are as before, or one new file has been
    added. *)
Lemma write_generated (E : Env) (destdir extension content : string) (w w' : World)
    (k : string → string → M unit) :
  (∀ p name v v', k p name v = Ok tt v' →
     ∃ ok v1, check_outputdir_status E destdir v = Ok ok v1
              ∧ v' = (if ok then add_event (FileWritten p content)
                                  {| clock := clock v1; rng_pos := rng_pos v1;
                                     files := <[p := content]> (files v1);
                                     dirs := dirs v1; trace := trace v1 |}
                      else v1)) →
  (let* '(p, name) := get_writable_path E destdir extension in k p name) w = Ok tt w' →
  files w' = files w
  ∨ ∃ p, unused p w ∧ files w' = <[p := content]> (files w).
Proof.
  intros Hk. unfold bind.
  pose proof (proj1 (get_writable_path_run E destdir extension w)) as Hfresh.
  destruct (get_writable_path E destdir extension w) as [[p name] w1|e w1|]; [|done..].
  destruct Hfresh as (_ & _ & _ & [Hud Huf] & Hc & Hf & Hd & Ht).
  intros Hrun. apply Hk in Hrun as (ok & v1 & Hcheck & ->).
  destruct (check_outputdir_status_run E destdir w1)
    as (ok' & v1' & Hcheck' & Hfiles & _).
  rewrite Hcheck in Hcheck'. injection Hcheck' as <- <-.
  destruct ok; simpl.
  - right. exists p. rewrite Hfiles, Hf. split; [|done].
    split; congruence.
  - left. congruence.
Qed.

(** X10: when the file name is generated ([keep_dirs] and [hash_as_name]
    off, no name handed in), a call of [write_result] that returns has left
    the files as they were or has added one file at a path that was unused,
    holding the result: it overwrites nothing. *)
Theorem write_result_overwrites_nothing (E : Env) (result : option string)
    (args : Args) (orig_filename : option string) (counter : option Z) (w w' : World) :
  keep_dirs args = false → hash_as_name args = false →
  write_result E result args orig_filename counter None w = Ok tt w' →
  files w' = files w
  ∨ ∃ p content, result = Some content ∧ unused p w
                 ∧ files w' = <[p := content]> (files w).
Proof.
  intros Hkeep Hhash. unfold write_result.
  destruct result as [content|]; [|intros [= ->]; by left].
  destruct (outputdir args) as [out|] eqn:Hout; [|intros [= <-]; by left].
  unfold determine_output_path. rewrite Hout, Hkeep, Hhash.
  unfold bind at 1 2.
  destruct (determine_counter_dir_pure E out counter w) as [[dest ->]|[e ->]]; [|done].
  intros Hrun.
  destruct (write_generated E dest (determine_extension args) content w w'
              (λ p _, let* ok := check_outputdir_status E dest in
                      when ok (file_write p content))) as [?|(p & Hp & Hf)].
  - intros p name v v'. unfold bind.
    destruct (check_outputdir_status_run E dest v) as (ok & v1 & -> & _).
    intros Hw. exists ok, v1. split; [done|].
    destruct ok; simpl in Hw; by injection Hw as <-.
  - unfold bind in *.
    destruct (get_writable_path E dest (determine_extension args) w)
      as [[p name] w1|e w1|]; done.
  - by left.
  - right. by exists p, content.
Qed.

Lemma write_result_overwrites_nothing_witness :
  ∃ w', write_result (stub_env 200 []) (Some "text") stub_args None None None empty_world
        = Ok tt w'
    ∧ (files w' = files empty_world
       ∨ ∃ p content, Some "text" = Some content ∧ unused p empty_world
                      ∧ files w' = <[p := content]> (files empty_world)).
Proof.
  assert (Hrun : ∃ w', write_result (stub_env 200 []) (Some "text") stub_args
                         None None None empty_world = Ok tt w').
  { eexists. vm_compute. reflexivity. }
  destruct Hrun as (w' & Hrun). exists w'. split; [exact Hrun|].
  apply (write_result_overwrites_nothing (stub_env 200 []) (Some "text") stub_args
           None None empty_world w'); [reflexivity|reflexivity|exact Hrun].
Defined.

(** X11: a call of [archive_html] that returns has left the files as they
    were or has added one file at a path that was unused, holding the raw
    document: a backup overwrites nothing. *)
Theorem archive_html_overwrites_nothing (E : Env) (htmlstring : string) (args : Args)
    (counter : option Z) (slug : string) (w w' : World) :
  archive_html E htmlstring args counter w = Ok slug w' →
  files w' = files w
  ∨ ∃ p, unused p w ∧ files w' = <[p := htmlstring]> (files w).
Proof.
  unfold archive_html. destruct (backup_dir args) as [bdir|]; [|done].
  unfold bind at 1.
  destruct (determine_counter_dir_pure E bdir counter w) as [[dest ->]|[e ->]]; [|done].
  unfold bind.
  pose proof (proj1 (get_writable_path_run E dest ".html" w)) as Hfresh.
  destruct (get_writable_path E dest ".html" w) as [[p name] w1|e w1|]; [|done..].
  destruct Hfresh as (_ & _ & _ & [Hud Huf] & Hc & Hf & Hd & Ht).
  destruct (check_outputdir_status_run E dest w1) as (ok & v1 & -> & Hfiles & _).
  destruct ok; simpl.
  - intros [= _ <-]. right. exists p. simpl. rewrite Hfiles, Hf.
    split; [|done]. split; congruence.
  - intros [= _ <-]. left. congruence.
Qed.

Lemma archive_html_overwrites_nothing_witness :
  ∃ slug w',
    archive_html (stub_env 200 []) "<html></html>"
      {| xml := false; xmltei := false; csv := false; json := false;
         output_format := "txt"; hash_as_name := false; keep_dirs := false;
         outputdir := None; backup_dir := Some "backup"; inputdir := "in"; URL := None;
         parallel := None; list_only := false; archived := false; blacklist := ∅;
         timeout := false; fast := false; nocomments := false; notables := false;
         formatting := false; with_metadata := false; validate := false;
         deduplicate := false; target_language := None |}
      (Some 0) empty_world = Ok slug w'
    ∧ (files w' = files empty_world
       ∨ ∃ p, unused p empty_world
              ∧ files w' = <[p := "<html></html>"]> (files empty_world)).
Proof.
  assert (Hrun : ∃ slug w',
            archive_html (stub_env 200 []) "<html></html>"
              {| xml := false; xmltei := false; csv := false; json := false;
                 output_format := "txt"; hash_as_name := false; keep_dirs := false;
                 outputdir := None; backup_dir := Some "backup"; inputdir := "in";
                 URL := None; parallel := None; list_only := false; archived := false;
                 blacklist := ∅; timeout := false; fast := false; nocomments := false;
                 notables := false; formatting := false; with_metadata := false;
                 validate := false; deduplicate := false; target_language := None |}
              (Some 0) empty_world = Ok slug w').
  { eexists _, _. vm_compute. reflexivity. }
  destruct Hrun as (slug & w' & Hrun). exists slug, w'. split; [exact Hrun|].
  exact (archive_html_overwrites_nothing _ _ _ _ _ _ _ Hrun).
Defined.

(** ** Shard directories *)


Lemma startswith_slash_cons (c : ascii) (s : string) :
  c ≠ "/"%char → Py.startswith "/" (String c s) = false.
Proof.
  intros Hc. cbn [Py.startswith].
  destruct (ascii_dec "/" c) as [Heq|]; [by destruct Hc|done].
Qed.








(** ** The archive retry with nothing to retry *)

Lemma single_on_empty_queue (E : Env) (domain : string) (args : Args) (sleeptime : Z)
    (counter : option Z) (w : World) :
  single_threaded_processing E {[ domain := [] ]} ∅ args sleeptime counter w
  = Raised IndexError (next_rng w).
Proof.
  unfold single_threaded_processing. cbn [single_loop].
  rewrite bool_decide_eq_false_2 by apply map_non_empty_singleton.
  unfold bind, draw_backoff_url, bind, random_choice, keys.
  rewrite map_to_list_singleton. cbn [fmap list_fmap length].
  rewrite Nat.mod_1_r. cbn [lookup list_lookup].
  unfold backoff_safeguard. rewrite lookup_empty. unfold ret.
  by rewrite lookup_singleton_eq.
Qed.

(** X13: when the retry through the archive is switched on and the first
    pass returns without a failed URL, [url_processing_pipeline] does not
    end normally: the retry queue [archive.org] is created empty, the
    sequential executor draws from it, and the [pop] on the empty queue
    raises [IndexError]. *)
Theorem archive_retry_without_errors (E : Env) (args : Args) (sleeptime : Z)
    (domain_dict : gmap string (list string)) (counter c1 : option Z) (w w1 : World) :
  archived args = true →
  (if Z.of_nat (size domain_dict) <=? 5
   then single_threaded_processing E domain_dict ∅ args sleeptime counter
   else multi_threaded_processing E domain_dict args sleeptime counter) w
  = Ok ([], c1) w1 →
  url_pipeline_execute E args sleeptime domain_dict counter w
  = Raised IndexError
      (next_rng (add_event (Logged "debug" "0 URLs could not be found") w1)).
Proof.
  intros Harch Hfirst. unfold url_pipeline_execute, bind. rewrite Hfirst, Harch.
  unfold LOGGER, emit, when. cbn [map].
  by rewrite single_on_empty_queue.
Qed.

Lemma archive_retry_without_errors_witness :
  url_pipeline_execute (stub_env 200 []) retry_args 10 ∅ None empty_world
  = Raised IndexError
      (next_rng (add_event (Logged "debug" "0 URLs could not be found") empty_world)).
Proof.
  apply (archive_retry_without_errors (stub_env 200 []) retry_args 10 ∅ None None
           empty_world empty_world); reflexivity.
Defined.

(** ** The list-only mode *)

Lemma url_processing_checks_returns (E : Env) (blacklist : gset string)
    (input_urls : list string) (w : World) :
  ∃ urls w1, url_processing_checks E blacklist input_urls w = Ok urls w1
             ∧ files w1 = files w ∧ dirs w1 = dirs w ∧ clock w1 = clock w
             ∧ rng_pos w1 = rng_pos w.
Proof.
  unfold url_processing_checks.
  destruct (match (if bool_decide (blacklist ≠ ∅) then _ else _) with
            | [] => _ | _ :: _ => _ end); by eexists _, _.
Qed.

Lemma write_result_print (E : Env) (result : string) (args : Args)
    (orig_filename : option string) (counter : option Z) (new_filename : option string)
    (w : World) :
  outputdir args = None →
  write_result E (Some result) args orig_filename counter new_filename w
  = Ok tt (add_event (Stdout (result +:+ nl)) w).
Proof. intros Hout. unfold write_result. by rewrite Hout. Qed.

Lemma for_each_print (E : Env) (urls : list string) (args : Args) (w : World) :
  outputdir args = None →
  ∃ w', for_each urls (λ url, write_result E (Some url) args None None None) w = Ok tt w'
        ∧ trace w' = trace w ++ map (λ url, Stdout (url +:+ nl)) urls
        ∧ files w' = files w ∧ dirs w' = dirs w ∧ clock w' = clock w
        ∧ rng_pos w' = rng_pos w.
Proof.
  intros Hout. revert w. induction urls as [|url urls IH]; intros w.
  - exists w. simpl. by rewrite app_nil_r.
  - cbn [for_each]. unfold bind. rewrite (write_result_print E url args _ _ _ w Hout).
    destruct (IH (add_event (Stdout (url +:+ nl)) w))
      as (w' & -> & Ht & Hf & Hd & Hc & Hr).
    exists w'. split; [done|]. split; [|done].
    rewrite Ht. simpl. by rewrite <- app_assoc.
Qed.

(** X14: in list-only mode with results on standard output,
    [url_processing_pipeline] prints the checked URLs, one per line and in
    order, and does nothing else after the checks: no download, no file,
    no directory, no pause, no use of the random generator. *)
Theorem list_mode_prints (E : Env) (args : Args) (input_urls : list string)
    (sleeptime : Z) (w : World) :
  list_only args = true → outputdir args = None →
  ∃ urls w1 w',
    url_processing_checks E (blacklist args) input_urls w = Ok urls w1
    ∧ url_processing_pipeline E args input_urls sleeptime w = Ok tt w'
    ∧ trace w' = trace w1 ++ map (λ url, Stdout (url +:+ nl)) urls
    ∧ files w' = files w ∧ dirs w' = dirs w ∧ clock w' = clock w
    ∧ rng_pos w' = rng_pos w.
Proof.
  intros Hlist Hout. unfold url_processing_pipeline, bind. rewrite Hlist.
  destruct (url_processing_checks_returns E (blacklist args) input_urls w)
    as (urls & w1 & -> & Hf1 & Hd1 & Hc1 & Hr1).
  destruct (for_each_print E urls args w1 Hout) as (w' & -> & Ht & Hf & Hd & Hc & Hr).
  exists urls, w1, w'. repeat split; congruence.
Qed.

Lemma list_mode_prints_witness :
  ∃ urls w1 w',
    url_processing_checks (stub_env 200 []) (blacklist list_args)
      ["http://a.org/1"; "http://a.org/1"; "http://b.org/2"] empty_world = Ok urls w1
    ∧ url_processing_pipeline (stub_env 200 []) list_args
        ["http://a.org/1"; "http://a.org/1"; "http://b.org/2"] 10 empty_world = Ok tt w'
    ∧ trace w' = trace w1 ++ map (λ url, Stdout (url +:+ nl)) urls
    ∧ files w' = files empty_world ∧ dirs w' = dirs empty_world
    ∧ clock w' = clock empty_world ∧ rng_pos w' = rng_pos empty_world.
Proof.
  apply (list_mode_prints (stub_env 200 []) list_args
           ["http://a.org/1"; "http://a.org/1"; "http://b.org/2"] 10 empty_world);
    reflexivity.
Defined.

(** ** Draws follow the input order within a domain *)

(** X15: on the queue mapping [url_processing_pipeline] builds from a
    non-empty list of URLs, a draw (with a non-negative [sleeptime])
    returns, for the domain it chooses, the first URL of that domain in
    the input list. *)
Theorem first_draw_in_input_order (E : Env) (input_urls : list string)
    (bd : gmap string Z) (sleeptime i : Z) (w0 w : World) :
  input_urls ≠ [] → 0 ≤ sleeptime →
  ∃ dd counter domain url dd' bd' i' w',
    url_pipeline_prepare E input_urls w0 = Ok (dd, counter) w0
    ∧ chosen_domain E dd w = Some domain
    ∧ draw_backoff_url E dd bd sleeptime i w = Ok (url, dd', bd', i') w'
    ∧ head (filter (λ u, extract_domain E u = domain) input_urls) = Some url.
Proof.
  intros Hne Hs.
  destruct (url_pipeline_prepare_run E input_urls w0)
    as (dd & counter & Hprep & Hchar & Hq & Hempty).
  assert (Hdd : dd ≠ ∅) by (intros Hdd; by apply Hempty in Hdd).
  destruct (draw_backoff_url_total E dd bd sleeptime i w Hdd Hq Hs)
    as (domain & url & rest & Hch & Hlk & Hrun).
  simpl in Hrun. exists dd, counter, domain, url. do 4 eexists.
  split; [exact Hprep|]. split; [exact Hch|]. split; [exact Hrun|].
  rewrite Hchar in Hlk.
  assert (Hrev : rev (filter (λ u, extract_domain E u = domain) input_urls)
                 = rest ++ [url]).
  { destruct (rev _); [done|]. by injection Hlk. }
  apply (f_equal (@rev string)) in Hrev.
  rewrite rev_involutive, rev_app_distr in Hrev. simpl in Hrev. by rewrite Hrev.
Qed.

Lemma first_draw_in_input_order_witness :
  ∃ dd counter domain url dd' bd' i' w',
    url_pipeline_prepare (stub_env 200 []) ["http://a.org/1"; "http://a.org/2"] empty_world
      = Ok (dd, counter) empty_world
    ∧ chosen_domain (stub_env 200 []) dd empty_world = Some domain
    ∧ draw_backoff_url (stub_env 200 []) dd ∅ 10 0 empty_world = Ok (url, dd', bd', i') w'
    ∧ head (filter (λ u, extract_domain (stub_env 200 []) u = domain)
              ["http://a.org/1"; "http://a.org/2"]) = Some url.
Proof.
  apply (first_draw_in_input_order (stub_env 200 [])
           ["http://a.org/1"; "http://a.org/2"] ∅ 10 0 empty_world empty_world);
    [discriminate|lia].
Defined.

(** ** The concurrent executor ends *)

Lemma size_list_to_set_le (l : list string) :
  (size (list_to_set l : gset string) ≤ length l)%nat.
Proof.
  induction l as [|x l IH]; [by rewrite list_to_set_nil, size_empty|].
  rewrite list_to_set_cons, size_union_alt, size_singleton. simpl.
  assert (size (list_to_set l ∖ {[x]} : gset string) ≤ size (list_to_set l : gset string))%nat
    by (apply subseteq_size; set_solver).
  lia.
Qed.

Lemma pending_empty : pending ∅ = 0%nat.
Proof. unfold pending. by rewrite map_to_list_empty. Qed.

Lemma populate_buffer_total (E : Env) (n : nat) (bufferlist : list string)
    (dd : gmap string (list string)) (bd : gmap string Z) (sleeptime i : Z) (w : World) :
  (n ≤ pending dd)%nat → queues_nonempty dd → 0 ≤ sleeptime →
  ∃ buf dd1 bd1 i1 w1,
    populate_buffer E n bufferlist dd bd sleeptime i w = Ok (buf, dd1, bd1, i1) w1
    ∧ queues_nonempty dd1 ∧ pending dd = (n + pending dd1)%nat.
Proof.
  intros Hn Hq Hs. revert bufferlist dd bd i w Hn Hq.
  induction n as [|n IH]; intros bufferlist dd bd i w Hn Hq; simpl.
  - by eexists _, dd, _, _, _.
  - assert (Hdd : dd ≠ ∅) by (intros ->; rewrite pending_empty in Hn; lia).
    unfold bind.
    destruct (draw_backoff_url_total E dd bd sleeptime i w Hdd Hq Hs)
      as (domain & url & rest & Hch & Hlk & Hrun).
    simpl in Hrun. rewrite Hrun.
    pose proof (pending_queue_after dd domain url _ rest Hlk (list_pop_snoc rest url))
      as Hpend.
    edestruct (IH (bufferlist ++ [url]) (queue_after dd domain rest))
      as (buf & dd1 & bd1 & i1 & w1 & -> & Hq1 & Hp1);
      [lia|by apply queues_nonempty_after|].
    eexists _, dd1, _, _, _. split; [done|]. split; [done|]. lia.
Qed.

Lemma handle_results_stdout (E : Env) (completed : list string) (args : Args)
    (counter : option Z) (errors : list string) (w : World) :
  outputdir args = None → truthy (backup_dir args) = false →
  ∃ result w', handle_results E completed args counter errors w = Ok result w'.
Proof.
  intros Hout Hbackup. revert counter errors w.
  induction completed as [|url rest IH]; intros counter errors w; simpl.
  - by eexists _, _.
  - destruct (fetch_url E url) as [html|].
    + unfold bind.
      edestruct (process_result_stdout E html args url counter) as (w1 & ->); [done..|].
      apply IH.
    + unfold bind, LOGGER, emit. apply IH.
Qed.

Lemma multi_loop_stdout (E : Env) (fuel : nat) (dd : gmap string (list string))
    (bd : gmap string Z) (args : Args) (sleeptime : Z) (counter : option Z) (i : Z)
    (errors : list string) (download_threads : Z) (w : World) :
  (pending dd < fuel)%nat → queues_nonempty dd → 0 ≤ sleeptime →
  outputdir args = None → truthy (backup_dir args) = false →
  1 ≤ download_threads →
  ∃ result w',
    multi_loop E fuel dd bd args sleeptime counter i errors download_threads w
    = Ok result w'.
Proof.
  intros Hfuel Hq Hs Hout Hbackup Hthreads.
  revert dd bd counter i errors w Hfuel Hq.
  induction fuel as [|fuel IH]; intros dd bd counter i errors w Hfuel Hq; [lia|].
  simpl. case_bool_decide as Hdd; [by eexists _, _|].
  destruct (Z.ltb_spec (Z.of_nat (size (distinct_urls dd))) download_threads)
    as [Hfew|Hmany].
  - unfold single_threaded_processing. apply single_loop_stdout; [lia|done..].
  - pose proof (size_list_to_set_le (concat (map_to_list dd).*2)) as Hsize.
    fold (distinct_urls dd) in Hsize. fold (pending dd) in Hsize.
    unfold bind.
    destruct (populate_buffer_total E (Z.to_nat download_threads) [] dd bd sleeptime i w)
      as (buf & dd1 & bd1 & i1 & w1 & -> & Hq1 & Hp1); [lia|done..|].
    unfold thread_pool_fetch.
    destruct (Z.ltb_spec download_threads 1) as [?|_]; [lia|].
    unfold bind, emit, elapse, ret.
    edestruct (handle_results_stdout E (as_completed E buf) args counter errors)
      as ([errors1 counter1] & w2 & ->); [done..|].
    apply IH; [lia|done].
Qed.

(** X16: with results on standard output and no backup, on queues none of
    which is empty, with a non-negative [sleeptime] and at least one
    worker, [multi_threaded_processing] ends normally, whatever the order
    in which the downloads of a batch complete. *)
Theorem multi_threaded_processing_returns (E : Env) (dd : gmap string (list string))
    (args : Args) (sleeptime : Z) (counter : option Z) (w : World) :
  queues_nonempty dd → 0 ≤ sleeptime →
  outputdir args = None → truthy (backup_dir args) = false →
  1 ≤ Py.or_default (parallel args) (DOWNLOAD_THREADS E) →
  ∃ errors c' w',
    multi_threaded_processing E dd args sleeptime counter w = Ok (errors, c') w'.
Proof.
  intros Hq Hs Hout Hbackup Hthreads. unfold multi_threaded_processing.
  destruct (multi_loop_stdout E (S (pending dd)) dd ∅ args sleeptime counter 0 []
              (Py.or_default (parallel args) (DOWNLOAD_THREADS E)) w)
    as ([errors c'] & w' & Hrun); [lia|done..|].
  by exists errors, c', w'.
Qed.

Lemma six_domains_queues : queues_nonempty six_domains.
Proof.
  intros d q Hlk Hq. subst q.
  assert (Hall : map_Forall (λ _ q, q ≠ []) six_domains).
  { apply (bool_decide_unpack _). vm_compute. exact I. }
  by apply (Hall d []).
Qed.

Lemma multi_threaded_processing_returns_witness :
  ∃ errors c' w',
    multi_threaded_processing (stub_env 200 []) six_domains stdout_args 10 (Some 0)
      empty_world = Ok (errors, c') w'.
Proof.
  apply (multi_threaded_processing_returns (stub_env 200 []) six_domains stdout_args 10
           (Some 0) empty_world).
  - apply six_domains_queues.
  - lia.
  - reflexivity.
  - reflexivity.
  - vm_compute. discriminate.
Defined.

(** ** Mirroring the input tree *)

Lemma strip_basename_rev_skip (q r : list ascii) :
  "/"%char ∉ q → strip_basename_rev (q ++ r) = strip_basename_rev r.
Proof.
  induction q as [|c q IH]; intros Hq; [done|]. simpl.
  destruct (ascii_dec c "/") as [->|_]; [set_solver|]. apply IH. set_solver.
Qed.

Lemma strip_basename_rev_split (r : list ascii) :
  ∃ p, r = p ++ strip_basename_rev r ∧ "/"%char ∉ p.
Proof.
  induction r as [|c r (p & Hr & Hp)]; simpl.
  - exists []. split; [done|set_solver].
  - destruct (ascii_dec c "/") as [->|Hc].
    + exists []. split; [done|set_solver].
    + exists (c :: p). split; [simpl; by f_equal|set_solver].
Qed.

Lemma is_lower_not_slash (c : ascii) : is_lower c = true → c ≠ "/"%char.
Proof. intros Hc ->. vm_compute in Hc. discriminate. Qed.

Lemma lower_run_take (r : list ascii) : "/"%char ∉ take (lower_run r) r.
Proof.
  induction r as [|c r IH]; simpl; [set_solver|].
  destruct (is_lower c) eqn:Hc; simpl; [|set_solver].
  apply is_lower_not_slash in Hc. set_solver.
Qed.

Lemma strip_ext_rev_split (r : list ascii) :
  ∃ q, r = q ++ strip_ext_rev r ∧ "/"%char ∉ q.
Proof.
  unfold strip_ext_rev.
  destruct ((2 <=? lower_run r)%nat && (lower_run r <=? 5)%nat);
    [|exists []; split; [done|set_solver]].
  destruct (drop (lower_run r) r) as [|c r'] eqn:Hdrop;
    [exists []; split; [done|set_solver]|].
  destruct (ascii_dec c ".") as [->|_]; [|exists []; split; [done|set_solver]].
  exists (take (lower_run r) r ++ ["."%char]). split.
  - rewrite <-(assoc_L (++)). simpl. rewrite <-Hdrop. by rewrite take_drop.
  - pose proof (lower_run_take r). rewrite elem_of_app, list_elem_of_singleton.
    intros [?|?]; [done|discriminate].
Qed.

Lemma strip_basename_rev_after (q r1 : list ascii) :
  "/"%char ∉ q →
  ∃ b, r1 = b ++ strip_basename_rev (q ++ r1) ∧ "/"%char ∉ b.
Proof.
  intros Hq. rewrite strip_basename_rev_skip by done. apply strip_basename_rev_split.
Qed.

Lemma strip_extension_rev_base (r : list ascii) :
  ∃ b, strip_extension_rev r = b ++ strip_basename_rev r ∧ "/"%char ∉ b.
Proof.
  destruct r as [|c r0]; [exists []; split; [done|set_solver]|].
  unfold strip_extension_rev. destruct (ascii_dec c "010") as [->|_].
  - destruct (strip_ext_rev_split r0) as (q & Hr0 & Hq).
    destruct (strip_basename_rev_after q (strip_ext_rev r0) Hq) as (b & Hb & Hb').
    rewrite <-Hr0 in Hb. exists ("010"%char :: b). split.
    + change (strip_basename_rev ("010"%char :: r0)) with (strip_basename_rev r0).
      simpl. by f_equal.
    + rewrite elem_of_cons. intros [?|?]; [discriminate|done].
  - destruct (strip_ext_rev_split (c :: r0)) as (q & Hr & Hq).
    destruct (strip_basename_rev_after q (strip_ext_rev (c :: r0)) Hq) as (b & Hb & Hb').
    rewrite <-Hr in Hb. by exists b.
Qed.

Lemma strip_extension_rev_eq (s : string) :
  strip_extension s = string_of_list_ascii (rev (strip_extension_rev (rev (chars s)))).
Proof.
  unfold strip_extension, strip_extension_rev, chars.
  destruct (rev (list_ascii_of_string s)) as [|c r] eqn:Hrev.
  - apply (f_equal (λ l, rev l)) in Hrev. rewrite rev_involutive in Hrev. simpl in Hrev.
    destruct s; [done|discriminate].
  - by destruct (ascii_dec c "010").
Qed.

Lemma string_of_list_ascii_app (l k : list ascii) :
  string_of_list_ascii (l ++ k) = string_of_list_ascii l +:+ string_of_list_ascii k.
Proof. induction l as [|c l IH]; [done|]. simpl. rewrite append_cons. by f_equal. Qed.

Lemma strip_extension_base (s : string) :
  ∃ base, strip_extension s = strip_basename s +:+ base ∧ "/"%char ∉ chars base.
Proof.
  destruct (strip_extension_rev_base (rev (chars s))) as (b & Hb & Hb').
  exists (string_of_list_ascii (rev b)). split.
  - rewrite strip_extension_rev_eq, Hb, rev_app_distr, string_of_list_ascii_app. done.
  - unfold chars. rewrite list_ascii_of_string_of_list_ascii.
    rewrite list_elem_of_In, <-in_rev, <-list_elem_of_In. done.
Qed.

Lemma append_empty_r (s : string) : s +:+ "" = s.
Proof. induction s as [|c s IH]; [done|]. rewrite append_cons. by f_equal. Qed.

Lemma startswith_slash_app (d x : string) :
  d ≠ "" ∨ Py.startswith "/" x = false →
  Py.startswith "/" (d +:+ x) = Py.startswith "/" d.
Proof.
  destruct d as [|c d]; [|done]. intros [?|Hx]; [done|]. by rewrite append_nil.
Qed.

Lemma path_join_app (a d x : string) :
  Py.startswith "/" (d +:+ x) = Py.startswith "/" d →
  Py.path_join a (d +:+ x) = Py.path_join a d +:+ x.
Proof.
  intros Hsw. unfold Py.path_join. rewrite Hsw.
  destruct (Py.startswith "/" d); [done|].
  destruct ((String.length a =? 0)%nat || Py.endswith_char "/" a);
    by rewrite ?append_assoc.
Qed.

Lemma determine_extension_dot (args : Args) :
  ∃ rest, determine_extension args = String "." rest.
Proof.
  unfold determine_extension.
  repeat match goal with |- context [if ?b then _ else _] => destruct b end;
    by eexists.
Qed.

Lemma base_extension_no_slash (base : string) (args : Args) :
  "/"%char ∉ chars base →
  Py.startswith "/" (base +:+ determine_extension args) = false.
Proof.
  intros Hbase. destruct (determine_extension_dot args) as (rest & ->).
  destruct base as [|c base].
  - rewrite append_nil. by apply startswith_slash_cons.
  - rewrite append_cons. apply startswith_slash_cons.
    intros ->. apply Hbase. unfold chars. simpl. set_solver.
Qed.

(** X17: when [keep_dirs] is set and an output directory is given,
    [determine_output_path] touches nothing and returns a destination
    directory together with a path made of that directory, a file name
    without slash and the extension of the output format, so the file lies
    directly in the directory that is returned; the counter, the proposed
    file name and the content hash play no role. *)
Theorem keep_dirs_path_in_destination (E : Env) (args : Args) (orig content out : string)
    (counter : option Z) (new_filename : option string) (w : World) :
  outputdir args = Some out → keep_dirs args = true →
  ∃ dest base,
    ("/"%char ∉ chars base)
    ∧ dest = Py.path_join out (strip_basename orig)
    ∧ determine_output_path E args (Some orig) content counter new_filename w
      = Ok (dest +:+ base +:+ determine_extension args, dest) w.
Proof.
  intros Hout Hkeep. unfold determine_output_path. rewrite Hout, Hkeep.
  destruct (strip_extension_base orig) as (base & -> & Hbase).
  exists (Py.path_join out (strip_basename orig)), base.
  split; [done|]. split; [done|]. unfold ret. do 2 f_equal.
  rewrite append_assoc. apply path_join_app, startswith_slash_app.
  right. by apply base_extension_no_slash.
Qed.

Lemma keep_dirs_path_in_destination_witness :
  ∃ dest base,
    ("/"%char ∉ chars base)
    ∧ dest = Py.path_join "out" (strip_basename "news/2020/page.html")
    ∧ determine_output_path (stub_env 200 []) mirror_args (Some "news/2020/page.html")
        "<html></html>" (Some 7) (Some "slug") empty_world
      = Ok (dest +:+ base +:+ determine_extension mirror_args, dest) empty_world.
Proof.
  apply (keep_dirs_path_in_destination (stub_env 200 []) mirror_args
           "news/2020/page.html" "<html></html>" "out" (Some 7) (Some "slug")
           empty_world); reflexivity.
Defined.
